(** * pgn4people: movetext extraction, brace stripping and tokenizing

    A shallow embedding of [process_pgn_file.py].  A Python [str] is a
    sequence of Unicode code points, an [int] index is a [Z] (the code uses
    [-1] as the "not found" value of [str.find]), and a call of the fatal
    error reporter ends the computation with a [Fault]. *)

From Stdlib Require Import String Ascii.
From Stdlib Require Import ZArith NArith List Bool Lia.
Import ListNotations.
Local Open Scope Z_scope.

(** ** Characters and strings *)

(** A character is its Unicode code point. *)
Definition char := N.

Definition text := list char.

(** A string literal of the development, read as a Python [str]. *)
Definition str (s : string) : text :=
  map N_of_ascii (list_ascii_of_string s).
Arguments str s%_string.

Definition len (s : text) : Z := Z.of_nat (length s).

Definition left_brace : char := 123%N.
Definition right_brace : char := 125%N.

(** [str.isspace] on one character, which is what [str.split()] and
    [str.lstrip()] use to recognise white space. *)
Definition is_space (c : char) : bool :=
  ((9 <=? c) && (c <=? 13) || (28 <=? c) && (c <=? 32)
   || (c =? 133) || (c =? 160) || (c =? 5760)
   || (8192 <=? c) && (c <=? 8202)
   || (c =? 8232) || (c =? 8233) || (c =? 8239) || (c =? 8287)
   || (c =? 12288))%N.

(** The complement of the class [[^A-Za-z()]] of the regular expression. *)
Definition is_letter_or_paren (c : char) : bool :=
  ((65 <=? c) && (c <=? 90) || (97 <=? c) && (c <=? 122)
   || (c =? 40) || (c =? 41))%N.

(** ** Python string primitives *)

(** How a slice bound or the start of [str.find] is read: a negative value
    counts from the end, and the result is clipped to [0 .. n]
    (the upper clip is left to the callers that need it). *)
Definition from_end (n k : Z) : Z :=
  if k <? 0 then Z.max 0 (k + n) else k.

Definition clip (n k : Z) : Z := Z.min n (from_end n k).

(** [s[start:stop]] *)
Definition slice (s : text) (start stop : Z) : text :=
  let a := clip (len s) start in
  let b := clip (len s) stop in
  firstn (Z.to_nat (b - a)) (skipn (Z.to_nat a) s).

(** [s[start:]] *)
Definition slice_from (s : text) (start : Z) : text :=
  skipn (Z.to_nat (clip (len s) start)) s.

(** Position of the first [c] in [l], whose first character has index
    [pos]; [-1] when there is none. *)
Fixpoint find_at (c : char) (l : text) (pos : Z) : Z :=
  match l with
  | [] => -1
  | x :: t => if (x =? c)%N then pos else find_at c t (pos + 1)
  end.

(** [s.find(c, start)] for a one-character [c]. *)
Definition find (s : text) (c : char) (start : Z) : Z :=
  let p := from_end (len s) start in
  if len s <? p then -1 else find_at c (skipn (Z.to_nat p) s) p.

(** [s.lstrip()] *)
Fixpoint lstrip (s : text) : text :=
  match s with
  | [] => []
  | c :: t => if is_space c then lstrip t else s
  end.

(** [s.split()]: the maximal runs of characters that are not white space.
    [cur] is the run being read, in reading order. *)
Fixpoint split_from (cur : text) (s : text) : list text :=
  match s with
  | [] => match cur with [] => [] | _ => [cur] end
  | c :: t =>
      if is_space c
      then match cur with [] => split_from [] t | _ => cur :: split_from [] t end
      else split_from (cur ++ [c]) t
  end.

Definition split (s : text) : list text := split_from [] s.

(** ** Faults *)

(** Modelled from the spec: [fatal_pgn_error] of the module
    [error_processing], which is not part of the sources at hand.  It
    "terminates the overall operation" and "never returns control to the
    caller"; the four messages the code builds are told apart by the fault
    and the index they embed. *)
Inductive fault : Type :=
| MissingHeaderSeparator
| EmptyMovetext
| UnmatchedOpeningDelimiter (index : Z)
| UnexpectedClosingDelimiter (index : Z).

(** What a call does: it returns a value, it stops in a fault, or the
    loop bound of the model was too small. *)
Inductive outcome (A : Type) : Type :=
| Ok (a : A)
| Fault (f : fault)
| OutOfFuel.
Arguments Ok {A} a.
Arguments Fault {A} f.
Arguments OutOfFuel {A}.

Definition bind {A B : Type} (m : outcome A) (k : A -> outcome B) : outcome B :=
  match m with
  | Ok a => k a
  | Fault f => Fault f
  | OutOfFuel => OutOfFuel
  end.

Notation "x <- m ;; k" := (bind m (fun x => k))
  (at level 61, m at next level, right associativity).

Definition fatal_pgn_error {A : Type} (f : fault) : outcome A := Fault f.

(** ** scan_for_next_brace *)

Definition value_if_no_brace_found : Z := -1.

(** The 3-tuple [(index_found, is_right_brace, is_left_brace)]. *)
Definition scan_for_next_brace (string_to_scan : text) (index_to_start_scan : Z)
    (left_brace right_brace : char) : Z * bool * bool :=
  let index_left_brace_found := find string_to_scan left_brace index_to_start_scan in
  let index_right_brace_found := find string_to_scan right_brace index_to_start_scan in
  if index_right_brace_found =? -1 then
    if index_left_brace_found =? -1
    then (value_if_no_brace_found, false, false)
    else (index_left_brace_found, false, true)
  else
    if index_left_brace_found =? -1
    then (index_right_brace_found, true, false)
    else if index_right_brace_found <? index_left_brace_found
    then (index_right_brace_found, true, false)
    else (index_left_brace_found, false, true).

(** ** strip_balanced_braces_from_string *)

(** The inner function [save_current_substring]; [list_of_substrings] is
    passed and returned. *)
Definition save_current_substring (string_to_strip : text)
    (list_of_substrings : list text) (start stop : Z) : list text :=
  if start <=? stop
  then list_of_substrings ++ [slice string_to_strip start stop]
  else list_of_substrings.

(** The [while net_left_braces > 0] loop of
    [skip_over_remainder_of_balanced_expression]; one unit of [fuel] per
    iteration.  [index_found] is the local of that name, which the loop
    assigns before it is read. *)
Fixpoint skip_loop (fuel : nat) (string_to_strip : text)
    (index_after_first_left_brace : Z)
    (net_left_braces base_index_for_search index_found : Z) : outcome Z :=
  if 0 <? net_left_braces then
    match fuel with
    | O => OutOfFuel
    | S fuel' =>
        let '(index_found, is_right_brace, is_left_brace) :=
          scan_for_next_brace string_to_strip base_index_for_search
            left_brace right_brace in
        if index_found =? -1
        then fatal_pgn_error
               (UnmatchedOpeningDelimiter (index_after_first_left_brace - 1))
        else
          let net_left_braces :=
            if is_right_brace then net_left_braces - 1
            else if is_left_brace then net_left_braces + 1
            else net_left_braces in
          skip_loop fuel' string_to_strip index_after_first_left_brace
            net_left_braces (index_found + 1) index_found
    end
  else Ok index_found.

Definition skip_over_remainder_of_balanced_expression (fuel : nat)
    (string_to_strip : text) (index_after_first_left_brace : Z) : outcome Z :=
  skip_loop fuel string_to_strip index_after_first_left_brace
    1 index_after_first_left_brace (-1).

(** The main [while] loop; one unit of [fuel] per iteration.  The last
    branch is the iteration in which none of the three [if]s applies, so
    that the loop goes round with nothing changed. *)
Fixpoint main_loop (fuel : nat) (string_to_strip : text)
    (beginning_of_current_substring : Z) (list_of_substrings : list text)
    : outcome (list text) :=
  if beginning_of_current_substring <? len string_to_strip then
    match fuel with
    | O => OutOfFuel
    | S fuel' =>
        let '(index_found, is_right_brace, is_left_brace) :=
          scan_for_next_brace string_to_strip beginning_of_current_substring
            left_brace right_brace in
        if is_right_brace
        then fatal_pgn_error (UnexpectedClosingDelimiter index_found)
        else if index_found =? -1
        then Ok (save_current_substring string_to_strip list_of_substrings
                   beginning_of_current_substring (len string_to_strip))
        else if is_left_brace
        then
          let list_of_substrings :=
            save_current_substring string_to_strip list_of_substrings
              beginning_of_current_substring index_found in
          index_end <- skip_over_remainder_of_balanced_expression
                         (S (length string_to_strip)) string_to_strip
                         (index_found + 1) ;;
          main_loop fuel' string_to_strip (index_end + 1) list_of_substrings
        else main_loop fuel' string_to_strip beginning_of_current_substring
               list_of_substrings
    end
  else Ok list_of_substrings.

(** Every iteration of either loop moves past at least one character, so
    one more than the length of the string is enough fuel
    (see [strip_balanced_braces_from_string_total]). *)
Definition strip_balanced_braces_from_string (string_to_strip : text)
    : outcome text :=
  list_of_substrings <- main_loop (S (length string_to_strip)) string_to_strip
                          0 [] ;;
  Ok (concat list_of_substrings).

(** ** extract_game_1_movetext, the tokenizer and the pipeline *)

(** [regex_pattern.sub("", string_to_strip)] with the pattern
    [^[^A-Za-z()]+]: the pattern is anchored at the start of the string, so
    the one match it can have is the longest leading run of characters
    outside the class. *)
Fixpoint strip_leading_movenumber_indication (string_to_strip : text) : text :=
  match string_to_strip with
  | [] => []
  | c :: t =>
      if is_letter_or_paren c then string_to_strip
      else strip_leading_movenumber_indication t
  end.

(** A Python string is true when it is not empty. *)
Definition truthy (s : text) : bool :=
  match s with [] => false | _ => true end.

Definition tokenize_pgnstring (pgnstring : text) : list text :=
  let tokenlist := split pgnstring in
  let tokenlist := map strip_leading_movenumber_indication tokenlist in
  filter truthy tokenlist.

Definition pgn_error_no_blank_line_after_headers {A : Type} : outcome A :=
  fatal_pgn_error MissingHeaderSeparator.

Section Pipeline.

(** The boundary locator of the module [utilities], which is not part of
    the sources at hand: it is a parameter of the functions that call it. *)
Variable id_text_between_first_two_blankish_lines :
  text -> option Z * option Z.

Definition extract_game_1_movetext (string_read_from_file : text)
    : outcome text :=
  let '(start_index, end_index) :=
    id_text_between_first_two_blankish_lines string_read_from_file in
  match start_index with
  | None => pgn_error_no_blank_line_after_headers
  | Some start_index =>
      let movetext_string :=
        match end_index with
        | None => slice_from string_read_from_file start_index
        | Some end_index => slice string_read_from_file start_index end_index
        end in
      Ok (lstrip movetext_string)
  end.

Definition clean_and_parse_string_read_from_file (string_read_from_file : text)
    : outcome (list text) :=
  pgnstring <- extract_game_1_movetext string_read_from_file ;;
  pgnstring <- strip_balanced_braces_from_string pgnstring ;;
  if negb (truthy pgnstring)
  then fatal_pgn_error EmptyMovetext
  else Ok (tokenize_pgnstring pgnstring).

End Pipeline.

(** ** The words of the specification *)

Definition is_brace (c : char) : bool :=
  ((c =? left_brace) || (c =? right_brace))%N.

Definition brace_free (s : text) : bool :=
  forallb (fun c => negb (is_brace c)) s.

(** The character at a position that is not negative. *)
Definition char_at (s : text) (j : Z) : option char :=
  nth_error s (Z.to_nat j).

(** Nesting depth, read from left to right, starting from [depth]:
    [balanced_from depth s] says that the depth never falls below zero and
    is zero at the end. *)
Fixpoint balanced_from (depth : nat) (s : text) : bool :=
  match s with
  | [] => match depth with O => true | S _ => false end
  | c :: t =>
      if (c =? left_brace)%N then balanced_from (S depth) t
      else if (c =? right_brace)%N
      then match depth with O => false | S d => balanced_from d t end
      else balanced_from depth t
  end.

Definition balanced (s : text) : bool := balanced_from 0 s.

(** The characters outside every annotation: those read at depth zero that
    are not themselves a brace. *)
Fixpoint outside_from (depth : nat) (s : text) : text :=
  match s with
  | [] => []
  | c :: t =>
      if (c =? left_brace)%N then outside_from (S depth) t
      else if (c =? right_brace)%N then outside_from (Nat.pred depth) t
      else match depth with
           | O => c :: outside_from depth t
           | S _ => outside_from depth t
           end
  end.

Definition outside_annotations (s : text) : text := outside_from 0 s.

(** [never_closed depth s]: read from [depth], the depth stays above the
    level at which the annotation that is open at the start would close. *)
Fixpoint never_closed (depth : nat) (s : text) : bool :=
  match s with
  | [] => true
  | c :: t =>
      if (c =? left_brace)%N then never_closed (S depth) t
      else if (c =? right_brace)%N
      then match depth with O => false | S d => never_closed d t end
      else never_closed depth t
  end.

(** A text with flat annotations, written out: pieces of plain text, each
    followed by one annotation, and a last piece of plain text. *)
Fixpoint annotated (pieces : list (text * text)) (last : text) : text :=
  match pieces with
  | [] => last
  | (plain, note) :: more =>
      plain ++ left_brace :: note ++ right_brace :: annotated more last
  end.

Fixpoint plain_of (pieces : list (text * text)) (last : text) : text :=
  match pieces with
  | [] => last
  | (plain, _) :: more => plain ++ plain_of more last
  end.

(** Every piece is plain text and every note is free of braces. *)
Definition flat_pieces (pieces : list (text * text)) : Prop :=
  Forall (fun p => brace_free (fst p) = true /\ brace_free (snd p) = true) pieces.

(** [m] is [sub] without its leading white space. *)
Definition left_trimmed (sub m : text) : Prop :=
  exists ws,
    sub = ws ++ m /\ forallb is_space ws = true
    /\ match m with [] => True | c :: _ => is_space c = false end.

Definition all_space (w : text) : bool := forallb is_space w.

Definition no_space (b : text) : bool := forallb (fun c => negb (is_space c)) b.

(** [bursts_of s bursts]: [bursts] are, in order, the maximal runs of
    characters of [s] that are not white space. *)
Inductive bursts_of : text -> list text -> Prop :=
| bursts_none (ws : text) :
    all_space ws = true -> bursts_of ws []
| bursts_next (ws b rest : text) (bs : list text) :
    all_space ws = true -> b <> [] -> no_space b = true ->
    match rest with [] => True | c :: _ => is_space c = true end ->
    bursts_of rest bs ->
    bursts_of (ws ++ b ++ rest) (b :: bs).

(** [token] is [burst] without its longest leading run of characters that
    are neither a letter nor a parenthesis. *)
Definition stripped_of (burst token : text) : Prop :=
  exists junk,
    burst = junk ++ token
    /\ forallb (fun c => negb (is_letter_or_paren c)) junk = true
    /\ match token with [] => True | c :: _ => is_letter_or_paren c = true end.

(** The stripper as the specification describes it, in one pass with a
    depth counter: [opened] is the index of the brace that opened the
    annotation being read, [pos] the index of the next character. *)
Fixpoint strip_by_depth (depth : nat) (opened pos : Z) (s : text) : outcome text :=
  match s with
  | [] =>
      match depth with
      | O => Ok []
      | S _ => Fault (UnmatchedOpeningDelimiter opened)
      end
  | c :: t =>
      if (c =? left_brace)%N
      then strip_by_depth (S depth)
             (match depth with O => pos | S _ => opened end) (pos + 1) t
      else if (c =? right_brace)%N
      then match depth with
           | O => Fault (UnexpectedClosingDelimiter pos)
           | S d => strip_by_depth d opened (pos + 1) t
           end
      else match depth with
           | O => kept <- strip_by_depth depth opened (pos + 1) t ;; Ok (c :: kept)
           | S _ => strip_by_depth depth opened (pos + 1) t
           end
  end.

(** What is left of [s] after the brace that closes the annotation open at
    the start, [extra] further annotations being open inside it. *)
Fixpoint after_close (extra : nat) (s : text) : option text :=
  match s with
  | [] => None
  | c :: t =>
      if (c =? left_brace)%N then after_close (S extra) t
      else if (c =? right_brace)%N
      then match extra with O => Some t | S d => after_close d t end
      else after_close extra t
  end.

(** ** dump_pgn *)

(** [s.replace(old, new)] for a one-character [old]. *)
Fixpoint replace (s : text) (old : char) (new : text) : text :=
  match s with
  | [] => []
  | c :: t =>
      if (c =? old)%N then new ++ replace t old new
      else c :: replace t old new
  end.

Definition newline : char := 10%N.

(** The route [dump_pgn] of [traverse.py], from the string that
    [read_static_pgn_file] has read to the [raw_pgn_string] handed to the
    page template. *)
Definition dump_pgn (string_read_from_file : text) : text :=
  replace string_read_from_file newline (str "<br>").

(** ** Further words for the properties *)

(** [subseq out s]: [out] is [s] with some characters left out, the others
    in their order. *)
Inductive subseq : text -> text -> Prop :=
| subseq_nil : subseq [] []
| subseq_keep (c : char) (out s : text) : subseq out s -> subseq (c :: out) (c :: s)
| subseq_drop (c : char) (out s : text) : subseq out s -> subseq out (c :: s).

(** A fault of the stripper found in a text that starts at index [n] of a
    longer one. *)
Definition shift_fault (n : Z) (f : fault) : fault :=
  match f with
  | UnmatchedOpeningDelimiter i => UnmatchedOpeningDelimiter (n + i)
  | UnexpectedClosingDelimiter j => UnexpectedClosingDelimiter (n + j)
  | other => other
  end.

Definition shift_outcome {A : Type} (n : Z) (m : outcome A) : outcome A :=
  match m with
  | Fault f => Fault (shift_fault n f)
  | other => other
  end.

Definition has_letter_or_paren (s : text) : bool := existsb is_letter_or_paren s.

(** A token as the tokenizer returns them: it starts with a letter or a
    parenthesis and holds no white space. *)
Definition well_formed_token (token : text) : Prop :=
  match token with
  | [] => False
  | c :: _ => is_letter_or_paren c = true
  end
  /\ no_space token = true.

Definition count_char (c : char) (s : text) : Z :=
  len (filter (fun x => (x =? c)%N) s).

(** * Properties *)

(** ** The examples of the specification, by evaluation *)

Example strip_nested :
  strip_balanced_braces_from_string (str "before{a{b{c}d}e}after")
  = Ok (str "beforeafter").
Proof. reflexivity. Qed.

Example strip_unclosed :
  strip_balanced_braces_from_string (str "text{unclosed")
  = Fault (UnmatchedOpeningDelimiter 4).
Proof. reflexivity. Qed.

Example strip_excess :
  strip_balanced_braces_from_string (str "text}")
  = Fault (UnexpectedClosingDelimiter 4).
Proof. reflexivity. Qed.

(** A scan from a start behind the last brace finds nothing; a negative
    start counts from the end of the string. *)
Example scan_behind_last_brace :
  scan_for_next_brace (str "a{b}c") 4 left_brace right_brace = (-1, false, false)
  /\ scan_for_next_brace (str "a{b}c") 2 left_brace right_brace = (3, true, false)
  /\ scan_for_next_brace (str "a{b}c") (-1) left_brace right_brace
     = (-1, false, false).
Proof. repeat split. Qed.

Example tokenize_export_format :
  tokenize_pgnstring (str "1.e4 e5 2.Nf3 Nc6")
  = [str "e4"; str "e5"; str "Nf3"; str "Nc6"].
Proof. reflexivity. Qed.

Example tokenize_parentheses :
  tokenize_pgnstring (str "12.Qd2 (12...Qd2 Rae8) 13.O-O")
  = [str "Qd2"; str "(12...Qd2"; str "Rae8)"; str "O-O"].
Proof. reflexivity. Qed.

(** ** Lengths, slices and [find] *)

Lemma len_nonneg (s : text) : 0 <= len s.
Proof. unfold len; lia. Qed.

Lemma len_app (a b : text) : len (a ++ b) = len a + len b.
Proof. unfold len; rewrite length_app; lia. Qed.

Lemma len_cons (c : char) (s : text) : len (c :: s) = len s + 1.
Proof. unfold len; simpl length; lia. Qed.

Lemma len_nil : len [] = 0.
Proof. reflexivity. Qed.

(** Lengths of appended texts, pushed to the leaves for [lia]. *)
Ltac len_lia :=
  repeat (rewrite len_app || rewrite len_cons || rewrite len_nil); lia.

Lemma from_end_nonneg (n k : Z) : 0 <= k -> from_end n k = k.
Proof. unfold from_end; intros H; destruct (Z.ltb_spec k 0); lia. Qed.

Lemma skipn_len_app (pre l : text) : skipn (Z.to_nat (len pre)) (pre ++ l) = l.
Proof.
  unfold len; rewrite Nat2Z.id, skipn_app, skipn_all, Nat.sub_diag; reflexivity.
Qed.

Lemma slice_middle (pre t rest : text) :
  slice (pre ++ t ++ rest) (len pre) (len pre + len t) = t.
Proof.
  unfold slice, clip.
  pose proof (len_nonneg pre); pose proof (len_nonneg t);
    pose proof (len_nonneg rest).
  rewrite !from_end_nonneg by lia.
  rewrite !len_app, !Z.min_r by lia.
  rewrite skipn_len_app.
  replace (Z.to_nat (len pre + len t - len pre)) with (length t)
    by (unfold len; lia).
  rewrite firstn_app, firstn_all, Nat.sub_diag; simpl; apply app_nil_r.
Qed.

Lemma slice_to_end (pre l : text) : slice (pre ++ l) (len pre) (len (pre ++ l)) = l.
Proof.
  rewrite len_app.
  pose proof (slice_middle pre l []) as H.
  rewrite app_nil_r in H; exact H.
Qed.

Lemma find_at_here (c : char) (l : text) (p : Z) : find_at c (c :: l) p = p.
Proof. simpl; rewrite N.eqb_refl; reflexivity. Qed.

Lemma find_at_next (c x : char) (l : text) (p : Z) :
  x <> c -> find_at c (x :: l) p = find_at c l (p + 1).
Proof. intros H; simpl; destruct (N.eqb_spec x c); [contradiction | reflexivity]. Qed.

(** Where [find_at] stops: at the first occurrence, or nowhere. *)
Lemma find_at_spec (c : char) (l : text) (p : Z) :
  (find_at c l p = -1 /\ ~ In c l)
  \/ exists t rest, l = t ++ c :: rest /\ ~ In c t /\ find_at c l p = p + len t.
Proof.
  revert p; induction l as [|x l IH]; intros p; simpl.
  - left; split; [reflexivity | tauto].
  - destruct (N.eqb_spec x c) as [->|Hne].
    + right; exists [], l; repeat split; [tauto | rewrite len_nil; lia].
    + destruct (IH (p + 1)) as [[E Hn]|(t & rest & -> & Hn & E)].
      * left; split; [exact E | intros [?|?]; [congruence | tauto]].
      * right; exists (x :: t), rest; repeat split.
        -- intros [?|?]; [congruence | tauto].
        -- rewrite E, len_cons; lia.
Qed.

Lemma find_at_skip (c : char) (t l : text) (p : Z) :
  ~ In c t -> find_at c (t ++ l) p = find_at c l (p + len t).
Proof.
  revert p; induction t as [|x t IH]; intros p Hn; simpl.
  - rewrite len_nil; f_equal; lia.
  - destruct (N.eqb_spec x c) as [->|Hne]; [exfalso; apply Hn; left; reflexivity|].
    rewrite IH by (intros ?; apply Hn; right; assumption).
    rewrite len_cons; f_equal; lia.
Qed.

Lemma find_at_absent (c : char) (l : text) (p : Z) :
  ~ In c l -> find_at c l p = -1.
Proof.
  intros Hn; destruct (find_at_spec c l p) as [[E _]|(t & rest & -> & _ & _)];
    [exact E | exfalso; apply Hn, in_elt].
Qed.

Lemma find_at_range (c : char) (l : text) (p : Z) :
  find_at c l p = -1 \/ p <= find_at c l p < p + len l.
Proof.
  destruct (find_at_spec c l p) as [[E _]|(t & rest & -> & _ & E)];
    [left; exact E | right].
  rewrite E, len_app, len_cons.
  pose proof (len_nonneg t); pose proof (len_nonneg rest); lia.
Qed.

Lemma find_suffix (pre l : text) (c : char) :
  find (pre ++ l) c (len pre) = find_at c l (len pre).
Proof.
  unfold find. pose proof (len_nonneg pre); pose proof (len_nonneg l).
  rewrite from_end_nonneg by lia. rewrite len_app.
  destruct (Z.ltb_spec (len pre + len l) (len pre)); [lia|].
  rewrite skipn_len_app; reflexivity.
Qed.

(** ** What [scan_for_next_brace] sees from a cursor *)

Lemma brace_free_cons (c : char) (l : text) :
  brace_free (c :: l) = true <->
  c <> left_brace /\ c <> right_brace /\ brace_free l = true.
Proof.
  unfold brace_free; simpl. rewrite andb_true_iff, negb_true_iff.
  unfold is_brace. rewrite orb_false_iff, !N.eqb_neq. tauto.
Qed.

Lemma brace_free_not_in (l : text) :
  brace_free l = true -> ~ In left_brace l /\ ~ In right_brace l.
Proof.
  induction l as [|x l IH]; [simpl; tauto|].
  rewrite brace_free_cons; intros (Hl & Hr & Hf).
  destruct (IH Hf); split; intros [?|?]; congruence || tauto.
Qed.

(** A text has no brace, or a first brace. *)
Lemma first_brace (l : text) :
  brace_free l = true
  \/ exists t rest, brace_free t = true
       /\ (l = t ++ left_brace :: rest \/ l = t ++ right_brace :: rest).
Proof.
  induction l as [|x l IH]; [left; reflexivity|].
  destruct (N.eqb_spec x left_brace) as [->|Hl].
  { right; exists [], l; split; [reflexivity | left; reflexivity]. }
  destruct (N.eqb_spec x right_brace) as [->|Hr].
  { right; exists [], l; split; [reflexivity | right; reflexivity]. }
  destruct IH as [Hf|(t & rest & Hf & Hs)].
  - left; apply brace_free_cons; tauto.
  - right; exists (x :: t), rest; split; [apply brace_free_cons; tauto|].
    destruct Hs as [->| ->]; [left | right]; reflexivity.
Qed.

Lemma scan_no_brace (pre l : text) :
  brace_free l = true ->
  scan_for_next_brace (pre ++ l) (len pre) left_brace right_brace
  = (-1, false, false).
Proof.
  intros Hf; destruct (brace_free_not_in l Hf) as [Hl Hr].
  unfold scan_for_next_brace.
  rewrite !find_suffix, (find_at_absent _ _ _ Hl), (find_at_absent _ _ _ Hr).
  reflexivity.
Qed.

Lemma scan_left_first (pre t rest : text) :
  brace_free t = true ->
  scan_for_next_brace (pre ++ t ++ left_brace :: rest) (len pre)
    left_brace right_brace
  = (len pre + len t, false, true).
Proof.
  intros Hf; destruct (brace_free_not_in t Hf) as [Hl Hr].
  unfold scan_for_next_brace.
  rewrite !find_suffix, !find_at_skip by assumption.
  pose proof (len_nonneg pre); pose proof (len_nonneg t).
  rewrite find_at_here, find_at_next by discriminate.
  destruct (find_at_range right_brace rest (len pre + len t + 1)) as [E|E].
  - rewrite E; simpl (-1 =? -1).
    destruct (Z.eqb_spec (len pre + len t) (-1)); [lia | reflexivity].
  - destruct (Z.eqb_spec (find_at right_brace rest (len pre + len t + 1)) (-1));
      [lia|].
    destruct (Z.eqb_spec (len pre + len t) (-1)); [lia|].
    destruct (Z.ltb_spec (find_at right_brace rest (len pre + len t + 1))
                (len pre + len t)); [lia | reflexivity].
Qed.

Lemma scan_right_first (pre t rest : text) :
  brace_free t = true ->
  scan_for_next_brace (pre ++ t ++ right_brace :: rest) (len pre)
    left_brace right_brace
  = (len pre + len t, true, false).
Proof.
  intros Hf; destruct (brace_free_not_in t Hf) as [Hl Hr].
  unfold scan_for_next_brace.
  rewrite !find_suffix, !find_at_skip by assumption.
  pose proof (len_nonneg pre); pose proof (len_nonneg t).
  rewrite find_at_here, find_at_next by discriminate.
  destruct (Z.eqb_spec (len pre + len t) (-1)); [lia|].
  destruct (find_at_range left_brace rest (len pre + len t + 1)) as [E|E].
  - rewrite E; reflexivity.
  - destruct (Z.eqb_spec (find_at left_brace rest (len pre + len t + 1)) (-1));
      [lia|].
    destruct (Z.ltb_spec (len pre + len t)
                (find_at left_brace rest (len pre + len t + 1)));
      [reflexivity | lia].
Qed.

(** ** The closing brace of an annotation *)

Lemma after_close_skip (d : nat) (t l : text) :
  brace_free t = true -> after_close d (t ++ l) = after_close d l.
Proof.
  induction t as [|x t IH]; [reflexivity|].
  rewrite brace_free_cons; intros (Hl & Hr & Hf); simpl.
  destruct (N.eqb_spec x left_brace); [contradiction|].
  destruct (N.eqb_spec x right_brace); [contradiction|].
  apply IH, Hf.
Qed.

Lemma after_close_no_brace (d : nat) (l : text) :
  brace_free l = true -> after_close d l = None.
Proof.
  intros Hf. rewrite <- (app_nil_r l), after_close_skip by assumption.
  reflexivity.
Qed.

(** The rest is a proper suffix. *)
Lemma after_close_suffix (l : text) :
  forall d r, after_close d l = Some r ->
  exists body, l = body ++ r /\ (length r < length l)%nat.
Proof.
  induction l as [|x l IH]; intros d r; simpl; [discriminate|].
  destruct (x =? left_brace)%N.
  { intros H; destruct (IH _ _ H) as (body & -> & Hlt).
    exists (x :: body); split; [reflexivity | simpl; lia]. }
  destruct (x =? right_brace)%N.
  { destruct d as [|d].
    - intros [= ->]; exists [x]; split; [reflexivity | simpl; lia].
    - intros H; destruct (IH _ _ H) as (body & -> & Hlt).
      exists (x :: body); split; [reflexivity | simpl; lia]. }
  intros H; destruct (IH _ _ H) as (body & -> & Hlt).
  exists (x :: body); split; [reflexivity | simpl; lia].
Qed.

(** ** The one-pass stripper *)

Lemma strip_by_depth_opened (l : text) (o o' p : Z) :
  strip_by_depth 0 o p l = strip_by_depth 0 o' p l.
Proof.
  revert p; induction l as [|x l IH]; intros p; simpl; [reflexivity|].
  destruct (x =? left_brace)%N; [reflexivity|].
  destruct (x =? right_brace)%N; [reflexivity|].
  rewrite IH; reflexivity.
Qed.

Lemma strip_by_depth_plain (t l : text) (o p : Z) :
  brace_free t = true ->
  strip_by_depth 0 o p (t ++ l)
  = (kept <- strip_by_depth 0 o (p + len t) l ;; Ok (t ++ kept)).
Proof.
  revert p; induction t as [|x t IH]; intros p.
  - intros _; simpl. rewrite len_nil, Z.add_0_r.
    destruct (strip_by_depth 0 o p l); reflexivity.
  - rewrite brace_free_cons; intros (Hl & Hr & Hf); simpl.
    destruct (N.eqb_spec x left_brace); [contradiction|].
    destruct (N.eqb_spec x right_brace); [contradiction|].
    rewrite IH by assumption. rewrite len_cons.
    replace (p + 1 + len t) with (p + (len t + 1)) by lia.
    destruct (strip_by_depth 0 o (p + (len t + 1)) l); reflexivity.
Qed.

Lemma strip_by_depth_no_brace (l : text) (o p : Z) :
  brace_free l = true -> strip_by_depth 0 o p l = Ok l.
Proof.
  intros Hf. rewrite <- (app_nil_r l) at 1.
  rewrite strip_by_depth_plain by assumption; simpl.
  rewrite app_nil_r; reflexivity.
Qed.

(** Inside an annotation nothing is kept up to its closing brace. *)
Lemma strip_by_depth_inside (l : text) :
  forall d o p,
  strip_by_depth (S d) o p l
  = match after_close d l with
    | None => Fault (UnmatchedOpeningDelimiter o)
    | Some r => strip_by_depth 0 o (p + len l - len r) r
    end.
Proof.
  induction l as [|x l IH]; intros d o p; simpl; [reflexivity|].
  rewrite len_cons.
  destruct (x =? left_brace)%N.
  { rewrite IH. destruct (after_close (S d) l); [f_equal; lia | reflexivity]. }
  destruct (x =? right_brace)%N.
  { destruct d as [|d].
    - f_equal; lia.
    - rewrite IH. destruct (after_close d l); [f_equal; lia | reflexivity]. }
  rewrite IH. destruct (after_close d l); [f_equal; lia | reflexivity].
Qed.

(** ** The two loops *)

Lemma skip_loop_balanced (fuel : nat) (s : text) (ia base idx : Z) :
  skip_loop fuel s ia 0 base idx = Ok idx.
Proof. destruct fuel; reflexivity. Qed.

(** The inner loop, started behind [pre] with [S d] annotations open,
    stops at the brace that closes the outermost of them. *)
Lemma skip_loop_after_close (ia : Z) :
  forall fuel l d pre idx,
  (length l < fuel)%nat ->
  skip_loop fuel (pre ++ l) ia (Z.of_nat (S d)) (len pre) idx
  = match after_close d l with
    | Some r => Ok (len (pre ++ l) - len r - 1)
    | None => Fault (UnmatchedOpeningDelimiter (ia - 1))
    end.
Proof.
  induction fuel as [|fuel IH]; intros l d pre idx Hfuel; [lia|].
  cbn [skip_loop].
  destruct (Z.ltb_spec 0 (Z.of_nat (S d))); [|lia].
  pose proof (len_nonneg pre) as Hpre.
  destruct (first_brace l) as [Hf|(t & rest & Hf & [-> | ->])].
  - rewrite scan_no_brace, after_close_no_brace by assumption. reflexivity.
  - rewrite scan_left_first by assumption.
    pose proof (len_nonneg t).
    destruct (Z.eqb_spec (len pre + len t) (-1)); [lia|].
    rewrite after_close_skip by assumption. cbn [after_close].
    change (left_brace =? left_brace)%N with true. cbv iota.
    replace (pre ++ t ++ left_brace :: rest)
      with ((pre ++ t ++ [left_brace]) ++ rest)
      by (rewrite <- !app_assoc; reflexivity).
    replace (len pre + len t + 1) with (len (pre ++ t ++ [left_brace]))
      by len_lia.
    replace (Z.of_nat (S d) + 1) with (Z.of_nat (S (S d))) by lia.
    apply IH. rewrite length_app in Hfuel; simpl in Hfuel; lia.
  - rewrite scan_right_first by assumption.
    pose proof (len_nonneg t).
    destruct (Z.eqb_spec (len pre + len t) (-1)); [lia|].
    rewrite after_close_skip by assumption. cbn [after_close].
    change (right_brace =? left_brace)%N with false.
    change (right_brace =? right_brace)%N with true. cbv iota.
    destruct d as [|d].
    + change (Z.of_nat 1 - 1) with 0. rewrite skip_loop_balanced.
      f_equal; rewrite !len_app, len_cons; lia.
    + replace (pre ++ t ++ right_brace :: rest)
        with ((pre ++ t ++ [right_brace]) ++ rest)
        by (rewrite <- !app_assoc; reflexivity).
      replace (len pre + len t + 1) with (len (pre ++ t ++ [right_brace]))
        by len_lia.
      replace (Z.of_nat (S (S d)) - 1) with (Z.of_nat (S d)) by lia.
      apply IH. rewrite length_app in Hfuel; simpl in Hfuel; lia.
Qed.

Lemma bind_bind {A B C : Type} (m : outcome A) (f : A -> outcome B)
    (g : B -> outcome C) :
  bind (bind m f) g = bind m (fun a => bind (f a) g).
Proof. destruct m; reflexivity. Qed.

Lemma bind_ext {A B : Type} (m : outcome A) (f g : A -> outcome B) :
  (forall a, f a = g a) -> bind m f = bind m g.
Proof. intros H; destruct m; simpl; [apply H | reflexivity | reflexivity]. Qed.

(** The main loop, with its cursor behind [pre], joins to what it has saved
    what the one-pass stripper keeps of the rest. *)
Lemma main_loop_refines :
  forall fuel l pre acc o,
  (length l < fuel)%nat ->
  (subs <- main_loop fuel (pre ++ l) (len pre) acc ;; Ok (concat subs))
  = (kept <- strip_by_depth 0 o (len pre) l ;; Ok (concat acc ++ kept)).
Proof.
  induction fuel as [|fuel IH]; intros l pre acc o Hfuel; [lia|].
  cbn [main_loop].
  pose proof (len_nonneg pre) as Hpre.
  destruct (Z.ltb_spec (len pre) (len (pre ++ l))) as [Hlt|Hge].
  2:{ destruct l as [|x l]; [|rewrite len_app, len_cons in Hge;
                                 pose proof (len_nonneg l); lia].
      simpl. rewrite app_nil_r; reflexivity. }
  destruct (first_brace l) as [Hf|(t & rest & Hf & [-> | ->])].
  - rewrite scan_no_brace by assumption. cbv iota beta. simpl (-1 =? -1).
    cbv iota. unfold save_current_substring.
    destruct (Z.leb_spec (len pre) (len (pre ++ l))); [|lia].
    rewrite slice_to_end, strip_by_depth_no_brace by assumption.
    simpl. rewrite concat_app; simpl. rewrite app_nil_r; reflexivity.
  - rewrite scan_left_first by assumption. cbv iota beta.
    pose proof (len_nonneg t) as Ht.
    destruct (Z.eqb_spec (len pre + len t) (-1)); [lia|].
    unfold save_current_substring.
    destruct (Z.leb_spec (len pre) (len pre + len t)); [|lia].
    rewrite slice_middle.
    rewrite strip_by_depth_plain by assumption.
    cbn [strip_by_depth]. change (left_brace =? left_brace)%N with true.
    cbv iota. rewrite strip_by_depth_inside.
    unfold skip_over_remainder_of_balanced_expression.
    assert (Hs : pre ++ t ++ left_brace :: rest
                 = (pre ++ t ++ [left_brace]) ++ rest)
      by (rewrite <- !app_assoc; reflexivity).
    assert (Hp : len pre + len t + 1 = len (pre ++ t ++ [left_brace]))
      by len_lia.
    pose proof (skip_loop_after_close (len pre + len t + 1)
                  (S (length (pre ++ t ++ left_brace :: rest))) rest 0
                  (pre ++ t ++ [left_brace]) (-1)) as Hskip.
    rewrite <- Hp, <- Hs in Hskip. change (Z.of_nat 1) with 1 in Hskip.
    rewrite Hskip by (rewrite !length_app; simpl; lia). clear Hskip.
    destruct (after_close 0 rest) as [r|] eqn:Hclose.
    + destruct (after_close_suffix _ _ _ Hclose) as (body & -> & Hlen).
      cbn [bind].
      assert (Hs' : pre ++ t ++ left_brace :: body ++ r
                    = (pre ++ t ++ left_brace :: body) ++ r)
        by (rewrite <- !app_assoc; reflexivity).
      assert (Hp' : len (pre ++ t ++ left_brace :: body ++ r) - len r - 1 + 1
                    = len (pre ++ t ++ left_brace :: body))
        by len_lia.
      rewrite Hp', Hs'.
      rewrite (IH r _ _ (len pre + len t))
        by (rewrite !length_app in Hfuel; simpl in Hfuel;
            rewrite length_app in Hfuel; lia).
      rewrite bind_bind.
      replace (len pre + len t + 1 + len (body ++ r) - len r)
        with (len (pre ++ t ++ left_brace :: body))
        by len_lia.
      apply bind_ext; intros kept; simpl.
      rewrite concat_app; simpl. rewrite app_nil_r, <- app_assoc; reflexivity.
    + simpl. do 2 f_equal. lia.
  - rewrite scan_right_first by assumption. cbv iota beta.
    rewrite strip_by_depth_plain by assumption.
    reflexivity.
Qed.

(** The code and the one-pass stripper of the specification agree on
    every string: same value, same fault, same index. *)
Lemma strip_refines (s : text) :
  strip_balanced_braces_from_string s = strip_by_depth 0 0 0 s.
Proof.
  unfold strip_balanced_braces_from_string.
  pose proof (main_loop_refines (S (length s)) s [] [] 0) as H.
  rewrite len_nil in H; cbn [app concat] in H. rewrite H by lia.
  destruct (strip_by_depth 0 0 0 s); reflexivity.
Qed.

Lemma strip_by_depth_total (s : text) :
  forall d o p, strip_by_depth d o p s <> OutOfFuel.
Proof.
  induction s as [|x s IH]; intros d o p; simpl.
  - destruct d; discriminate.
  - destruct (x =? left_brace)%N; [apply IH|].
    destruct (x =? right_brace)%N; [destruct d; [discriminate | apply IH]|].
    destruct d; [|apply IH].
    specialize (IH 0%nat o (p + 1)).
    destruct (strip_by_depth 0 o (p + 1) s); simpl; congruence.
Qed.

(** The model never runs out of fuel: the function is total. *)
Lemma strip_balanced_braces_from_string_total (s : text) :
  strip_balanced_braces_from_string s <> OutOfFuel.
Proof. rewrite strip_refines. apply strip_by_depth_total. Qed.

(** ** Balanced texts *)

Lemma strip_by_depth_balanced (pre : text) :
  forall d o o' p l,
  balanced_from d pre = true ->
  strip_by_depth d o p (pre ++ l)
  = (kept <- strip_by_depth 0 o' (p + len pre) l ;; Ok (outside_from d pre ++ kept)).
Proof.
  induction pre as [|x pre IH]; intros d o o' p l.
  - destruct d; [intros _ | discriminate]. simpl.
    rewrite len_nil, Z.add_0_r, (strip_by_depth_opened l o o').
    destruct (strip_by_depth 0 o' p l); reflexivity.
  - simpl. rewrite len_cons.
    replace (p + (len pre + 1)) with (p + 1 + len pre) by lia.
    destruct (x =? left_brace)%N; [apply IH|].
    destruct (x =? right_brace)%N.
    { destruct d as [|d]; [discriminate | apply IH]. }
    destruct d as [|d]; [|apply IH].
    intros Hb. rewrite (IH _ _ o' _ _ Hb), bind_bind. reflexivity.
Qed.

Lemma never_closed_after_close (l : text) :
  forall d, never_closed d l = true -> after_close d l = None.
Proof.
  induction l as [|x l IH]; intros d; simpl; [reflexivity|].
  destruct (x =? left_brace)%N; [apply IH|].
  destruct (x =? right_brace)%N; [|apply IH].
  destruct d; [discriminate | apply IH].
Qed.

Lemma strip_by_depth_brace_free (s : text) :
  forall d o p kept,
  strip_by_depth d o p s = Ok kept -> brace_free kept = true.
Proof.
  induction s as [|x s IH]; intros d o p kept; simpl.
  - destruct d; [intros [= <-]; reflexivity | discriminate].
  - destruct (N.eqb_spec x left_brace) as [|Hl]; [apply IH|].
    destruct (N.eqb_spec x right_brace) as [|Hr].
    { destruct d; [discriminate | apply IH]. }
    destruct d; [|apply IH].
    destruct (strip_by_depth 0 o (p + 1) s) as [k| |] eqn:E; simpl;
      try discriminate.
    intros [= <-]. apply brace_free_cons; repeat split; try assumption.
    apply (IH _ _ _ _ E).
Qed.

(** Flat annotations, written out piece by piece. *)
Lemma balanced_from_plain (t l : text) (d : nat) :
  brace_free t = true -> balanced_from d (t ++ l) = balanced_from d l.
Proof.
  induction t as [|x t IH]; [reflexivity|].
  rewrite brace_free_cons; intros (Hl & Hr & Hf); simpl.
  destruct (N.eqb_spec x left_brace); [contradiction|].
  destruct (N.eqb_spec x right_brace); [contradiction|].
  apply IH, Hf.
Qed.

Lemma outside_from_plain (t l : text) :
  brace_free t = true -> outside_from 0 (t ++ l) = t ++ outside_from 0 l.
Proof.
  induction t as [|x t IH]; [reflexivity|].
  rewrite brace_free_cons; intros (Hl & Hr & Hf); simpl.
  destruct (N.eqb_spec x left_brace); [contradiction|].
  destruct (N.eqb_spec x right_brace); [contradiction|].
  rewrite IH by assumption; reflexivity.
Qed.

Lemma outside_from_note (t l : text) :
  brace_free t = true -> outside_from 1 (t ++ l) = outside_from 1 l.
Proof.
  induction t as [|x t IH]; [reflexivity|].
  rewrite brace_free_cons; intros (Hl & Hr & Hf); simpl.
  destruct (N.eqb_spec x left_brace); [contradiction|].
  destruct (N.eqb_spec x right_brace); [contradiction|].
  apply IH, Hf.
Qed.

Lemma annotated_balanced (pieces : list (text * text)) (last : text) :
  flat_pieces pieces -> brace_free last = true ->
  balanced (annotated pieces last) = true
  /\ outside_annotations (annotated pieces last) = plain_of pieces last.
Proof.
  unfold balanced, outside_annotations.
  intros Hp Hlast; induction Hp as [|[plain note] more [Hplain Hnote] _ IH];
    simpl in *.
  - rewrite <- (app_nil_r last).
    rewrite balanced_from_plain, outside_from_plain by assumption.
    split; [reflexivity | simpl; reflexivity].
  - destruct IH as [IHb IHo].
    rewrite balanced_from_plain, outside_from_plain by assumption.
    cbn [balanced_from outside_from].
    change (left_brace =? left_brace)%N with true. cbv iota.
    rewrite balanced_from_plain, outside_from_note by assumption.
    cbn [balanced_from outside_from].
    change (right_brace =? left_brace)%N with false.
    change (right_brace =? right_brace)%N with true. cbv iota.
    simpl Nat.pred. rewrite IHb, IHo. split; reflexivity.
Qed.

(** ** strip_balanced_braces_from_string: results and faults *)

(** C1: on a text whose annotations are balanced the stripper returns, in
    source order, exactly the characters outside every top-level
    annotation; when the annotations do not nest, this is the text with
    every brace-to-brace span deleted, the plain pieces being kept as they
    are; and the nested example of the specification gives
    ["beforeafter"]. *)
Theorem strip_balanced_braces_keeps_outside :
  (forall s : text,
     balanced s = true ->
     strip_balanced_braces_from_string s = Ok (outside_annotations s))
  /\ (forall (pieces : list (text * text)) (last : text),
        flat_pieces pieces -> brace_free last = true ->
        strip_balanced_braces_from_string (annotated pieces last)
        = Ok (plain_of pieces last))
  /\ strip_balanced_braces_from_string (str "before{a{b{c}d}e}after")
     = Ok (str "beforeafter").
Proof.
  assert (General : forall s, balanced s = true ->
            strip_balanced_braces_from_string s = Ok (outside_annotations s)).
  { intros s Hb. rewrite strip_refines.
    pose proof (strip_by_depth_balanced s 0 0 0 0 [] Hb) as H.
    rewrite app_nil_r in H. rewrite H; simpl.
    unfold outside_annotations; rewrite app_nil_r; reflexivity. }
  split; [exact General | split; [|reflexivity]].
  intros pieces last Hp Hlast.
  destruct (annotated_balanced pieces last Hp Hlast) as [Hb Ho].
  rewrite (General _ Hb), Ho; reflexivity.
Qed.

Lemma strip_balanced_braces_keeps_outside_witness :
  balanced (str "a{x}{y}b") = true
  /\ strip_balanced_braces_from_string (str "a{x}{y}b") = Ok (str "ab").
Proof.
  split; [reflexivity|].
  exact (proj1 strip_balanced_braces_keeps_outside (str "a{x}{y}b") eq_refl).
Defined.

(** C2: when an annotation opened at index [i] at top level (what comes
    before it is balanced) is still open at the end of the string, the
    stripper stops in the fault [UnmatchedOpeningDelimiter i] and returns
    no value; for ["text{unclosed"] the index is 4. *)
Theorem strip_reports_unmatched_opening :
  (forall pre body : text,
     balanced pre = true -> never_closed 0 body = true ->
     strip_balanced_braces_from_string (pre ++ left_brace :: body)
     = Fault (UnmatchedOpeningDelimiter (len pre)))
  /\ strip_balanced_braces_from_string (str "text{unclosed")
     = Fault (UnmatchedOpeningDelimiter 4).
Proof.
  split; [|reflexivity].
  intros pre body Hb Hn. rewrite strip_refines.
  rewrite (strip_by_depth_balanced pre 0 0 0 0 _ Hb).
  cbn [strip_by_depth]. change (left_brace =? left_brace)%N with true.
  cbv iota. rewrite strip_by_depth_inside.
  rewrite (never_closed_after_close _ _ Hn). reflexivity.
Qed.

Lemma strip_reports_unmatched_opening_witness :
  strip_balanced_braces_from_string (str "1.e4 {good} e5 {bad {worse} 2.Nf3")
  = Fault (UnmatchedOpeningDelimiter 15).
Proof.
  exact (proj1 strip_reports_unmatched_opening
           (str "1.e4 {good} e5 ") (str "bad {worse} 2.Nf3") eq_refl eq_refl).
Defined.

(** C3: when the next brace found at top level (what comes before it is
    balanced) is a closing brace at index [j], the stripper stops in the
    fault [UnexpectedClosingDelimiter j] and returns no value; for
    ["text}"] the index is 4. *)
Theorem strip_reports_unexpected_closing :
  (forall pre rest : text,
     balanced pre = true ->
     strip_balanced_braces_from_string (pre ++ right_brace :: rest)
     = Fault (UnexpectedClosingDelimiter (len pre)))
  /\ strip_balanced_braces_from_string (str "text}")
     = Fault (UnexpectedClosingDelimiter 4).
Proof.
  split; [|reflexivity].
  intros pre rest Hb. rewrite strip_refines.
  rewrite (strip_by_depth_balanced pre 0 0 0 0 _ Hb). reflexivity.
Qed.

Lemma strip_reports_unexpected_closing_witness :
  strip_balanced_braces_from_string (str "1.e4 {good} e5 } 2.Nf3 {")
  = Fault (UnexpectedClosingDelimiter 15).
Proof.
  exact (proj1 strip_reports_unexpected_closing
           (str "1.e4 {good} e5 ") (str " 2.Nf3 {") eq_refl).
Defined.

(** C6: a string the stripper returns holds no brace at all, so no
    unmatched one of either kind. *)
Theorem strip_output_has_no_brace (s out : text) :
  strip_balanced_braces_from_string s = Ok out ->
  brace_free out = true /\ ~ In left_brace out /\ ~ In right_brace out.
Proof.
  rewrite strip_refines; intros H.
  pose proof (strip_by_depth_brace_free _ _ _ _ _ H) as Hf.
  split; [exact Hf | apply brace_free_not_in, Hf].
Qed.

Lemma strip_output_has_no_brace_witness :
  brace_free (str "e4  e5") = true
  /\ ~ In left_brace (str "e4  e5") /\ ~ In right_brace (str "e4  e5").
Proof.
  exact (strip_output_has_no_brace (str "e4 {a{b}} e5") (str "e4  e5") eq_refl).
Defined.

(** C7: stripping the output of a successful strip returns it unchanged. *)
Theorem strip_idempotent (s out : text) :
  strip_balanced_braces_from_string s = Ok out ->
  strip_balanced_braces_from_string out = Ok out.
Proof.
  rewrite !strip_refines; intros H.
  apply strip_by_depth_no_brace. exact (strip_by_depth_brace_free _ _ _ _ _ H).
Qed.

Lemma strip_idempotent_witness :
  strip_balanced_braces_from_string (str "e4  e5") = Ok (str "e4  e5").
Proof.
  exact (strip_idempotent (str "e4 {a{b}} e5") (str "e4  e5") eq_refl).
Defined.

(** ** scan_for_next_brace *)

Lemma char_at_behind (pre l : text) (j : Z) :
  len pre <= j -> char_at (pre ++ l) j = nth_error l (Z.to_nat (j - len pre)).
Proof.
  unfold char_at, len; intros H. rewrite nth_error_app2 by lia.
  f_equal; lia.
Qed.

Lemma char_at_outside (s : text) (j : Z) : len s <= j -> char_at s j = None.
Proof. unfold char_at, len; intros H. apply nth_error_None; lia. Qed.

(** [find] returns the first position of the character at or after the
    place where the search starts, or [-1] when there is none. *)
Lemma find_spec (s : text) (c : char) (k : Z) :
  let p := from_end (len s) k in
  (find s c k = -1 /\ forall j, p <= j -> char_at s j <> Some c)
  \/ (p <= find s c k < len s
      /\ char_at s (find s c k) = Some c
      /\ forall j, p <= j < find s c k -> char_at s j <> Some c).
Proof.
  intros p. assert (Hp : 0 <= p).
  { unfold p, from_end. destruct (Z.ltb_spec k 0); lia. }
  unfold find. fold p. destruct (Z.ltb_spec (len s) p) as [Hout|Hin].
  { left; split; [reflexivity|]. intros j Hj.
    rewrite char_at_outside by lia. discriminate. }
  pose proof (firstn_skipn (Z.to_nat p) s) as Hs.
  set (pre := firstn (Z.to_nat p) s) in *.
  set (l := skipn (Z.to_nat p) s) in *.
  assert (Hpre : len pre = p).
  { unfold pre, len in *. rewrite length_firstn. lia. }
  rewrite <- Hs.
  destruct (find_at_spec c l p) as [[E Hn]|(t & rest & El & Hn & E)].
  - left; split; [exact E|]. intros j Hj.
    rewrite char_at_behind by lia. intros Hc.
    apply Hn, (nth_error_In _ _ Hc).
  - right. rewrite E, El. pose proof (len_nonneg t).
    split; [|split].
    + pose proof (len_nonneg rest). rewrite !len_app, len_cons. lia.
    + rewrite char_at_behind by lia.
      replace (Z.to_nat (p + len t - len pre)) with (length t)
        by (unfold len in *; lia).
      rewrite nth_error_app2, Nat.sub_diag by lia. reflexivity.
    + intros j Hj. rewrite char_at_behind by lia.
      rewrite nth_error_app1 by (unfold len in *; lia).
      intros Hc. apply Hn, (nth_error_In _ _ Hc).
Qed.

(** The two cases of a scan, for any two delimiter characters: nothing
    found, or the first position at or after the start that holds one of
    them, with the flag of the one found. *)
Lemma scan_for_next_brace_cases (s : text) (k : Z) (lb rb : char) :
  let p := from_end (len s) k in
  (scan_for_next_brace s k lb rb = (-1, false, false)
   /\ forall j, p <= j -> char_at s j <> Some lb /\ char_at s j <> Some rb)
  \/ exists i,
       p <= i < len s
       /\ (forall j, p <= j < i ->
             char_at s j <> Some lb /\ char_at s j <> Some rb)
       /\ (scan_for_next_brace s k lb rb = (i, false, true)
           /\ char_at s i = Some lb
           \/ scan_for_next_brace s k lb rb = (i, true, false)
              /\ char_at s i = Some rb).
Proof.
  intros p. assert (Hp : 0 <= p).
  { unfold p, from_end. destruct (Z.ltb_spec k 0); lia. }
  unfold scan_for_next_brace, value_if_no_brace_found.
  destruct (find_spec s lb k) as [[El Hl]|(Rl & Cl & Hl)];
    destruct (find_spec s rb k) as [[Er Hr]|(Rr & Cr & Hr)];
    fold p in Hl, Hr; try fold p in Rl; try fold p in Rr.
  - left. rewrite El, Er. simpl. split; [reflexivity|].
    intros j Hj; split; [apply Hl | apply Hr]; exact Hj.
  - right. exists (find s rb k). rewrite El.
    destruct (Z.eqb_spec (find s rb k) (-1)); [lia|]. simpl.
    split; [exact Rr | split].
    + intros j Hj; split; [apply Hl | apply Hr]; lia.
    + right; split; [reflexivity | exact Cr].
  - right. exists (find s lb k). rewrite Er. simpl.
    destruct (Z.eqb_spec (find s lb k) (-1)); [lia|].
    split; [exact Rl | split].
    + intros j Hj; split; [apply Hl | apply Hr]; lia.
    + left; split; [reflexivity | exact Cl].
  - right.
    destruct (Z.eqb_spec (find s rb k) (-1)); [lia|].
    destruct (Z.eqb_spec (find s lb k) (-1)); [lia|].
    destruct (Z.ltb_spec (find s rb k) (find s lb k)).
    + exists (find s rb k). split; [exact Rr | split].
      * intros j Hj; split; [apply Hl | apply Hr]; lia.
      * right; split; [reflexivity | exact Cr].
    + exists (find s lb k). split; [exact Rl | split].
      * intros j Hj; split; [apply Hl | apply Hr]; lia.
      * left; split; [reflexivity | exact Cl].
Qed.

(** C5: for every string, every start and any two delimiter characters,
    the scan returns the smallest index at or after the start that holds
    the left or the right delimiter, with the flag of the one found there;
    when neither occurs from the start on, it returns index -1 with both
    flags false.  The position [p] at which the search starts is the
    offset itself when that is not negative; a negative one is read by
    [str.find] from the end of the string. *)
Theorem scan_for_next_brace_finds_nearest (s : text) (k : Z) (lb rb : char) :
  let p := if k <? 0 then Z.max 0 (k + len s) else k in
  let '(index_found, is_right_brace, is_left_brace) :=
    scan_for_next_brace s k lb rb in
  (index_found = -1 /\ is_right_brace = false /\ is_left_brace = false
   /\ forall j, p <= j -> char_at s j <> Some lb /\ char_at s j <> Some rb)
  \/ (p <= index_found < len s
      /\ (forall j, p <= j < index_found ->
            char_at s j <> Some lb /\ char_at s j <> Some rb)
      /\ (is_left_brace = true /\ is_right_brace = false
          /\ char_at s index_found = Some lb
          \/ is_right_brace = true /\ is_left_brace = false
             /\ char_at s index_found = Some rb)).
Proof.
  intros p.
  destruct (scan_for_next_brace_cases s k lb rb)
    as [[E H]|(i & Hi & Hmin & [[E Hc]|[E Hc]])]; rewrite E.
  - left; repeat split; apply H; assumption.
  - right; split; [exact Hi | split; [exact Hmin | left; auto]].
  - right; split; [exact Hi | split; [exact Hmin | right; auto]].
Qed.

(** C10: every result of a scan is well formed: the two flags are never
    both true; both are false exactly when the index is -1; and an index
    other than -1 is at least the start and holds the brace that the true
    flag names. *)
Theorem scan_for_next_brace_well_formed (s : text) (k : Z) (lb rb : char) :
  let '(index_found, is_right_brace, is_left_brace) :=
    scan_for_next_brace s k lb rb in
  is_right_brace && is_left_brace = false
  /\ (is_right_brace = false /\ is_left_brace = false <-> index_found = -1)
  /\ (index_found <> -1 ->
      k <= index_found
      /\ (is_right_brace = true /\ char_at s index_found = Some rb
          \/ is_left_brace = true /\ char_at s index_found = Some lb)).
Proof.
  assert (Hp : 0 <= from_end (len s) k /\ k <= from_end (len s) k).
  { unfold from_end. pose proof (len_nonneg s).
    destruct (Z.ltb_spec k 0); lia. }
  destruct (scan_for_next_brace_cases s k lb rb)
    as [[E H]|(i & Hi & Hmin & [[E Hc]|[E Hc]])]; rewrite E.
  - split; [reflexivity | split; [tauto | congruence]].
  - split; [reflexivity | split; [split; [intros [_ ?]; discriminate | lia]|]].
    intros _; split; [lia | right; auto].
  - split; [reflexivity | split; [split; [intros [? _]; discriminate | lia]|]].
    intros _; split; [lia | left; auto].
Qed.

(** ** extract_game_1_movetext *)

Lemma lstrip_left_trimmed (s : text) : left_trimmed s (lstrip s).
Proof.
  induction s as [|c s (ws & E & Hws & Hm)]; simpl.
  - exists []; repeat split.
  - destruct (is_space c) eqn:Hc.
    + exists (c :: ws); simpl. rewrite Hc, Hws, <- E. repeat split. exact Hm.
    + exists []; repeat split. exact Hc.
Qed.

Lemma slice_from_skipn (s : text) (a : Z) :
  0 <= a -> slice_from s a = skipn (Z.to_nat a) s.
Proof.
  intros Ha. unfold slice_from, clip. rewrite from_end_nonneg by assumption.
  destruct (Z.le_gt_cases a (len s)).
  - rewrite Z.min_r by assumption. reflexivity.
  - rewrite Z.min_l by lia. unfold len in *.
    rewrite !skipn_all2 by lia. reflexivity.
Qed.

Lemma slice_skipn_firstn (s : text) (a b : Z) :
  0 <= a -> 0 <= b ->
  slice s a b = skipn (Z.to_nat a) (firstn (Z.to_nat b) s).
Proof.
  intros Ha Hb. unfold slice, clip. rewrite !from_end_nonneg by assumption.
  rewrite skipn_firstn_comm.
  destruct (Z.le_gt_cases a (len s)) as [Hal|Hal].
  - rewrite (Z.min_r _ a) by assumption.
    destruct (Z.le_gt_cases b (len s)) as [Hbl|Hbl].
    + rewrite Z.min_r by assumption. f_equal. lia.
    + rewrite Z.min_l by lia. unfold len in *.
      rewrite !firstn_all2 by (rewrite length_skipn; lia). reflexivity.
  - rewrite (Z.min_l _ a) by lia. unfold len in *.
    rewrite !skipn_all2 by lia. rewrite !firstn_nil. reflexivity.
Qed.

(** C8: when the boundary locator gives a first boundary and no second
    one, the movetext is the text from the first boundary to the end
    without its leading white space; when it gives both, it is the text
    between the two without its leading white space. *)
Theorem extract_game_1_movetext_slices
    (locate : text -> option Z * option Z) (source : text) (a : Z) :
  0 <= a ->
  (locate source = (Some a, None) ->
   exists m, extract_game_1_movetext locate source = Ok m
             /\ left_trimmed (skipn (Z.to_nat a) source) m)
  /\ (forall b, 0 <= b -> locate source = (Some a, Some b) ->
      exists m, extract_game_1_movetext locate source = Ok m
                /\ left_trimmed
                     (skipn (Z.to_nat a) (firstn (Z.to_nat b) source)) m).
Proof.
  intros Ha; split.
  - intros E. unfold extract_game_1_movetext; rewrite E.
    eexists; split; [reflexivity|].
    rewrite slice_from_skipn by assumption. apply lstrip_left_trimmed.
  - intros b Hb E. unfold extract_game_1_movetext; rewrite E.
    eexists; split; [reflexivity|].
    rewrite slice_skipn_firstn by assumption. apply lstrip_left_trimmed.
Qed.

Lemma extract_game_1_movetext_slices_witness :
  let headers := str "[Event x]" ++ [10; 10]%N in
  (exists m,
     extract_game_1_movetext (fun _ => (Some 10, None))
       (headers ++ str " 1.e4 e5") = Ok m
     /\ left_trimmed (skipn 10 (headers ++ str " 1.e4 e5")) m)
  /\ (exists m,
        extract_game_1_movetext (fun _ => (Some 10, Some 20))
          (headers ++ str " 1.e4 e5" ++ [10; 10]%N ++ str "[Event y]") = Ok m
        /\ left_trimmed
             (skipn 10 (firstn 20 (headers ++ str " 1.e4 e5" ++ [10; 10]%N
                                     ++ str "[Event y]"))) m).
Proof.
  split.
  - apply (proj1 (extract_game_1_movetext_slices (fun _ => (Some 10, None))
                    (str "[Event x]" ++ [10; 10]%N ++ str " 1.e4 e5") 10
                    ltac:(discriminate))).
    reflexivity.
  - apply (proj2 (extract_game_1_movetext_slices (fun _ => (Some 10, Some 20))
                    (str "[Event x]" ++ [10; 10]%N ++ str " 1.e4 e5"
                       ++ [10; 10]%N ++ str "[Event y]") 10
                    ltac:(discriminate)) 20 ltac:(discriminate)).
    reflexivity.
Defined.

Example extract_to_end :
  extract_game_1_movetext (fun _ => (Some 10, None))
    (str "[Event x]" ++ [10; 10]%N ++ str " 1.e4 e5")
  = Ok (str "1.e4 e5").
Proof. reflexivity. Qed.

(** ** tokenize_pgnstring *)

Lemma bursts_of_space (c : char) (l : text) (bs : list text) :
  is_space c = true -> bursts_of l bs -> bursts_of (c :: l) bs.
Proof.
  intros Hc H; inversion H as [ws Hws|ws b rest bs' Hws Hb Hn Hr Hrest]; subst.
  - apply bursts_none. unfold all_space in *; simpl. rewrite Hc; exact Hws.
  - change (c :: ws ++ b ++ rest) with ((c :: ws) ++ b ++ rest).
    apply bursts_next; try assumption.
    unfold all_space in *; simpl. rewrite Hc; exact Hws.
Qed.

Lemma split_from_bursts (s : text) :
  forall cur, no_space cur = true -> bursts_of (cur ++ s) (split_from cur s).
Proof.
  induction s as [|c s IH]; intros cur Hcur; simpl.
  - destruct cur as [|x cur]; [apply bursts_none; reflexivity|].
    apply (bursts_next [] (x :: cur) [] []);
      [reflexivity | discriminate | assumption | exact I |
       apply bursts_none; reflexivity].
  - destruct (is_space c) eqn:Hc.
    + pose proof (bursts_of_space c _ _ Hc (IH [] eq_refl)) as Hrest.
      destruct cur as [|x cur]; [exact Hrest|].
      apply (bursts_next [] (x :: cur) (c :: s));
        [reflexivity | discriminate | assumption | exact Hc | exact Hrest].
    + replace (cur ++ c :: s) with ((cur ++ [c]) ++ s)
        by (rewrite <- app_assoc; reflexivity).
      apply IH. unfold no_space in *.
      rewrite forallb_app, Hcur; simpl. rewrite Hc; reflexivity.
Qed.

Lemma strip_leading_stripped_of (b : text) :
  stripped_of b (strip_leading_movenumber_indication b).
Proof.
  induction b as [|c b (junk & E & Hj & Ht)]; simpl.
  - exists []; repeat split.
  - destruct (is_letter_or_paren c) eqn:Hc.
    + exists []; repeat split. exact Hc.
    + exists (c :: junk); simpl. rewrite Hc, Hj, <- E. repeat split. exact Ht.
Qed.

(** C4: the tokenizer splits the string into its maximal runs of
    characters that are not white space, removes from each run its
    longest leading run of characters that are neither an ASCII letter nor
    a parenthesis, drops what has become empty and returns the rest in
    source order, so that no token is empty; the two examples of the
    specification come out as stated. *)
Theorem tokenize_pgnstring_spec :
  (forall s : text,
     exists bursts stripped,
       bursts_of s bursts
       /\ Forall2 stripped_of bursts stripped
       /\ tokenize_pgnstring s = filter truthy stripped
       /\ Forall (fun token => token <> []) (tokenize_pgnstring s))
  /\ tokenize_pgnstring (str "1.e4 e5 2.Nf3 Nc6")
     = [str "e4"; str "e5"; str "Nf3"; str "Nc6"]
  /\ split (str "1. e4 e5") = [str "1."; str "e4"; str "e5"]
  /\ strip_leading_movenumber_indication (str "1.") = []
  /\ tokenize_pgnstring (str "1. e4 e5") = [str "e4"; str "e5"].
Proof.
  split; [|repeat split].
  intros s. exists (split s), (map strip_leading_movenumber_indication (split s)).
  split; [exact (split_from_bursts s [] eq_refl)|].
  split; [|split; [reflexivity|]].
  - induction (split s) as [|b bs IH]; simpl; constructor;
      [apply strip_leading_stripped_of | exact IH].
  - unfold tokenize_pgnstring. apply Forall_forall. intros token Hin.
    apply filter_In in Hin. destruct Hin as [_ Ht].
    destruct token; [discriminate Ht | discriminate].
Qed.

(** ** clean_and_parse_string_read_from_file *)

(** The stripper has two faults, both with an index. *)
Lemma strip_by_depth_faults (s : text) :
  forall d o p f,
  strip_by_depth d o p s = Fault f ->
  exists i, f = UnmatchedOpeningDelimiter i \/ f = UnexpectedClosingDelimiter i.
Proof.
  induction s as [|x s IH]; intros d o p f; simpl.
  - destruct d; [discriminate | intros [= <-]; eexists; left; reflexivity].
  - destruct (x =? left_brace)%N; [apply IH|].
    destruct (x =? right_brace)%N.
    { destruct d; [intros [= <-]; eexists; right; reflexivity | apply IH]. }
    destruct d; [|apply IH].
    destruct (strip_by_depth 0 o (p + 1) s) eqn:E; simpl; try discriminate.
    intros [= <-]. apply (IH _ _ _ _ E).
Qed.

(** C9: the pipeline stops for empty movetext exactly when the stripped
    movetext is the empty string, and it decides so before it tokenizes:
    whenever the stripped movetext is not empty the tokens are returned,
    however few.  So movetext ["*"], and an annotation followed by a
    space, give the empty token list and no fault. *)
Theorem pipeline_can_return_no_token :
  (forall (locate : text -> option Z * option Z) (source : text),
     clean_and_parse_string_read_from_file locate source = Fault EmptyMovetext
     <-> exists m, extract_game_1_movetext locate source = Ok m
                   /\ strip_balanced_braces_from_string m = Ok [])
  /\ (forall (locate : text -> option Z * option Z) (source m stripped : text),
        extract_game_1_movetext locate source = Ok m ->
        strip_balanced_braces_from_string m = Ok stripped ->
        stripped <> [] ->
        clean_and_parse_string_read_from_file locate source
        = Ok (tokenize_pgnstring stripped))
  /\ (let locate := fun _ : text => (Some 0, @None Z) in
      strip_balanced_braces_from_string (str "*") = Ok (str "*")
      /\ clean_and_parse_string_read_from_file locate (str "*") = Ok []
      /\ strip_balanced_braces_from_string (str "{note} ") = Ok (str " ")
      /\ clean_and_parse_string_read_from_file locate (str "{note} ") = Ok []).
Proof.
  split; [|split; [|repeat split]].
  - intros locate source. unfold clean_and_parse_string_read_from_file.
    split.
    + destruct (extract_game_1_movetext locate source) as [m|f|] eqn:Em;
        simpl; [| |discriminate].
      * destruct (strip_balanced_braces_from_string m) as [out|f|] eqn:Es;
          simpl; [| |discriminate].
        -- destruct out; simpl; [|discriminate].
           intros _; exists m; split; reflexivity || assumption.
        -- intros [= ->]. rewrite strip_refines in Es.
           destruct (strip_by_depth_faults _ _ _ _ _ Es) as [i [E|E]];
             discriminate E.
      * unfold extract_game_1_movetext in Em.
        destruct (locate source) as [[a|] e]; [discriminate|].
        intros [= ->]. cbv in Em. discriminate Em.
    + intros (m & -> & Es); simpl. rewrite Es; reflexivity.
  - intros locate source m stripped Em Es Hne.
    unfold clean_and_parse_string_read_from_file. rewrite Em; simpl.
    rewrite Es; simpl. destruct stripped; [contradiction | reflexivity].
Qed.

Lemma pipeline_can_return_no_token_witness :
  clean_and_parse_string_read_from_file (fun _ => (Some 0, None))
    (str "1. {only a note} *")
  = Ok [].
Proof.
  exact (proj1 (proj2 pipeline_can_return_no_token)
           (fun _ => (Some 0, None)) (str "1. {only a note} *")
           (str "1. {only a note} *") (str "1.  *")
           eq_refl eq_refl ltac:(discriminate)).
Defined.

(** * Further properties of the code *)

(** ** The stripper: when it returns and what its faults point at *)

Lemma strip_by_depth_ok (s : text) :
  forall d o p kept,
  strip_by_depth d o p s = Ok kept ->
  balanced_from d s = true /\ kept = outside_from d s.
Proof.
  induction s as [|x s IH]; intros d o p kept; simpl.
  - destruct d; [intros [= <-]; split; reflexivity | discriminate].
  - destruct (x =? left_brace)%N; [apply IH|].
    destruct (x =? right_brace)%N.
    { destruct d; [discriminate | apply IH]. }
    destruct d; [|apply IH].
    destruct (strip_by_depth 0 o (p + 1) s) as [k| |] eqn:E; simpl;
      try discriminate.
    intros [= <-]. destruct (IH _ _ _ _ E) as [Hb ->]. split; [exact Hb | reflexivity].
Qed.

Lemma strip_by_depth_of_balanced (s : text) (d : nat) (o p : Z) :
  balanced_from d s = true -> strip_by_depth d o p s = Ok (outside_from d s).
Proof.
  intros Hb. pose proof (strip_by_depth_balanced s d o o p [] Hb) as H.
  rewrite app_nil_r in H. rewrite H; simpl. rewrite app_nil_r; reflexivity.
Qed.

Lemma strip_by_depth_unexpected (s : text) :
  forall d o p j,
  strip_by_depth d o p s = Fault (UnexpectedClosingDelimiter j) ->
  exists pre rest,
    s = pre ++ right_brace :: rest /\ balanced_from d pre = true
    /\ j = p + len pre.
Proof.
  induction s as [|x s IH]; intros d o p j; simpl.
  - destruct d; discriminate.
  - destruct (N.eqb_spec x left_brace) as [->|Hl].
    { intros H; destruct (IH _ _ _ _ H) as (pre & rest & -> & Hb & ->).
      exists (left_brace :: pre), rest; repeat split; [exact Hb | len_lia]. }
    destruct (N.eqb_spec x right_brace) as [->|Hr].
    { destruct d as [|d].
      - intros [= <-]. exists [], s; repeat split. len_lia.
      - intros H; destruct (IH _ _ _ _ H) as (pre & rest & -> & Hb & ->).
        exists (right_brace :: pre), rest; repeat split; [exact Hb | len_lia]. }
    assert (Step : forall d', strip_by_depth d' o (p + 1) s
                     = Fault (UnexpectedClosingDelimiter j) ->
              balanced_from d' (x :: nil) = balanced_from d' (x :: nil) ->
              exists pre rest, x :: s = pre ++ right_brace :: rest
                /\ balanced_from d' pre = true /\ j = p + len pre).
    { intros d' H _. destruct (IH _ _ _ _ H) as (pre & rest & -> & Hb & ->).
      exists (x :: pre), rest; repeat split; [|len_lia].
      simpl. destruct (N.eqb_spec x left_brace); [contradiction|].
      destruct (N.eqb_spec x right_brace); [contradiction | exact Hb]. }
    destruct d as [|d]; [|intros H; apply (Step _ H eq_refl)].
    destruct (strip_by_depth 0 o (p + 1) s) as [k|f|] eqn:E; simpl;
      try discriminate.
    intros [= ->]. apply (Step _ E eq_refl).
Qed.

Lemma strip_by_depth_unmatched (s : text) :
  forall d o p i,
  strip_by_depth d o p s = Fault (UnmatchedOpeningDelimiter i) ->
  (exists d', d = S d' /\ i = o /\ never_closed d' s = true)
  \/ exists pre body,
       s = pre ++ left_brace :: body /\ balanced_from d pre = true
       /\ never_closed 0 body = true /\ i = p + len pre.
Proof.
  induction s as [|x s IH]; intros d o p i; simpl.
  - destruct d as [|d]; [discriminate|].
    intros [= <-]. left; exists d; repeat split.
  - destruct (N.eqb_spec x left_brace) as [->|Hl].
    { intros H; destruct (IH _ _ _ _ H)
        as [(d' & [= <-] & -> & Hn)|(pre & body & -> & Hb & Hn & ->)].
      - destruct d as [|d].
        + right; exists [], s; repeat split; [exact Hn | len_lia].
        + left; exists d; repeat split. exact Hn.
      - right; exists (left_brace :: pre), body; repeat split;
          [exact Hb | exact Hn | len_lia]. }
    destruct (N.eqb_spec x right_brace) as [->|Hr].
    { destruct d as [|d]; [discriminate|].
      intros H; destruct (IH _ _ _ _ H)
        as [(d' & -> & -> & Hn)|(pre & body & -> & Hb & Hn & ->)].
      - left; exists (S d'); repeat split. exact Hn.
      - right; exists (right_brace :: pre), body; repeat split;
          [exact Hb | exact Hn | len_lia]. }
    assert (Step : forall d0,
              strip_by_depth d0 o (p + 1) s = Fault (UnmatchedOpeningDelimiter i) ->
              (exists d', d0 = S d' /\ i = o /\ never_closed d' s = true)
              \/ exists pre body,
                   x :: s = pre ++ left_brace :: body
                   /\ balanced_from d0 pre = true
                   /\ never_closed 0 body = true /\ i = p + len pre).
    { intros d0 H; destruct (IH _ _ _ _ H)
        as [(d' & -> & -> & Hn)|(pre & body & -> & Hb & Hn & ->)].
      - left; exists d'; repeat split. exact Hn.
      - right; exists (x :: pre), body; repeat split; [|exact Hn | len_lia].
        simpl. destruct (N.eqb_spec x left_brace); [contradiction|].
        destruct (N.eqb_spec x right_brace); [contradiction | exact Hb]. }
    destruct d as [|d]; [|exact (Step _)].
    destruct (strip_by_depth 0 o (p + 1) s) as [k|f|] eqn:E; simpl;
      try discriminate.
    intros [= ->]. apply (Step _ E).
Qed.

(** X1: the stripper returns a value exactly on the texts whose braces are
    balanced. *)
Theorem strip_succeeds_iff_balanced (s : text) :
  (exists out, strip_balanced_braces_from_string s = Ok out)
  <-> balanced s = true.
Proof.
  rewrite strip_refines; split.
  - intros [out H]. apply (strip_by_depth_ok _ _ _ _ _ H).
  - intros Hb. eexists. apply strip_by_depth_of_balanced, Hb.
Qed.

(** X2: the stripper reports an unexpected closing brace at [j] exactly
    when the text has a closing brace at position [j] and what stands
    before it is balanced. *)
Theorem strip_unexpected_closing_iff (s : text) (j : Z) :
  strip_balanced_braces_from_string s = Fault (UnexpectedClosingDelimiter j)
  <-> exists pre rest,
        s = pre ++ right_brace :: rest /\ balanced pre = true /\ j = len pre.
Proof.
  rewrite strip_refines; split.
  - intros H. destruct (strip_by_depth_unexpected _ _ _ _ _ H)
      as (pre & rest & -> & Hb & ->).
    exists pre, rest; split; [reflexivity | split; [exact Hb | lia]].
  - intros (pre & rest & -> & Hb & ->).
    rewrite (strip_by_depth_balanced pre 0 0 0 0 _ Hb). reflexivity.
Qed.

(** X3: the stripper reports an unmatched opening brace at [i] exactly when
    the text has an opening brace at position [i], what stands before it
    is balanced, and the annotation it opens is not closed by the end. *)
Theorem strip_unmatched_opening_iff (s : text) (i : Z) :
  strip_balanced_braces_from_string s = Fault (UnmatchedOpeningDelimiter i)
  <-> exists pre body,
        s = pre ++ left_brace :: body /\ balanced pre = true
        /\ never_closed 0 body = true /\ i = len pre.
Proof.
  rewrite strip_refines; split.
  - intros H. destruct (strip_by_depth_unmatched _ _ _ _ _ H)
      as [(d' & [=] & _)|(pre & body & -> & Hb & Hn & ->)].
    exists pre, body.
    split; [reflexivity | split; [exact Hb | split; [exact Hn | lia]]].
  - intros (pre & body & -> & Hb & Hn & ->).
    rewrite (strip_by_depth_balanced pre 0 0 0 0 _ Hb).
    cbn [strip_by_depth]. change (left_brace =? left_brace)%N with true.
    cbv iota. rewrite strip_by_depth_inside.
    rewrite (never_closed_after_close _ _ Hn). reflexivity.
Qed.

Lemma strip_unexpected_closing_iff_witness :
  strip_balanced_braces_from_string (str "e4 {a} } e5")
  = Fault (UnexpectedClosingDelimiter 7).
Proof.
  apply (proj2 (strip_unexpected_closing_iff (str "e4 {a} } e5") 7)).
  exists (str "e4 {a} "), (str " e5"). repeat split.
Defined.

Lemma strip_unmatched_opening_iff_witness :
  strip_balanced_braces_from_string (str "e4 {a} {b{c} e5")
  = Fault (UnmatchedOpeningDelimiter 7).
Proof.
  apply (proj2 (strip_unmatched_opening_iff (str "e4 {a} {b{c} e5") 7)).
  exists (str "e4 {a} "), (str "b{c} e5"). repeat split.
Defined.

Lemma strip_succeeds_iff_balanced_witness :
  exists out, strip_balanced_braces_from_string (str "e4 {a{b}} e5") = Ok out.
Proof.
  apply (proj2 (strip_succeeds_iff_balanced (str "e4 {a{b}} e5"))). reflexivity.
Defined.

(** ** The stripper: termination, fixed points, composition *)

(** X4: the loops of the stripper end: with any bound above the length of
    the text the main loop comes to the same result, which is a value or a
    fault and never an exhausted bound. *)
Theorem strip_loops_terminate (s : text) (fuel : nat) :
  (length s < fuel)%nat ->
  (subs <- main_loop fuel s 0 [] ;; Ok (concat subs))
  = strip_balanced_braces_from_string s
  /\ strip_balanced_braces_from_string s <> OutOfFuel.
Proof.
  intros Hfuel. split; [|apply strip_balanced_braces_from_string_total].
  rewrite strip_refines.
  pose proof (main_loop_refines fuel s [] [] 0 Hfuel) as H.
  rewrite len_nil in H; cbn [app concat] in H. rewrite H.
  destruct (strip_by_depth 0 0 0 s); reflexivity.
Qed.

Lemma strip_loops_terminate_witness :
  (subs <- main_loop 40 (str "e4 {a{b}} e5") 0 [] ;; Ok (concat subs))
  = strip_balanced_braces_from_string (str "e4 {a{b}} e5")
  /\ strip_balanced_braces_from_string (str "e4 {a{b}} e5") <> OutOfFuel.
Proof.
  apply (strip_loops_terminate (str "e4 {a{b}} e5") 40). simpl. lia.
Defined.

(** X5: the stripper returns its input unchanged exactly when the input
    holds no brace. *)
Theorem strip_unchanged_iff_brace_free (s : text) :
  strip_balanced_braces_from_string s = Ok s <-> brace_free s = true.
Proof.
  rewrite strip_refines; split.
  - apply strip_by_depth_brace_free.
  - apply strip_by_depth_no_brace.
Qed.

Lemma strip_unchanged_iff_brace_free_witness :
  strip_balanced_braces_from_string (str "1.e4 e5 (1...c5) *")
  = Ok (str "1.e4 e5 (1...c5) *").
Proof.
  apply (proj2 (strip_unchanged_iff_brace_free (str "1.e4 e5 (1...c5) *"))).
  reflexivity.
Defined.

Lemma strip_by_depth_shift (s : text) (q : Z) :
  forall d o p,
  strip_by_depth d (q + o) (q + p) s = shift_outcome q (strip_by_depth d o p s).
Proof.
  induction s as [|x s IH]; intros d o p; simpl.
  - destruct d; reflexivity.
  - replace (q + p + 1) with (q + (p + 1)) by lia.
    destruct (x =? left_brace)%N.
    { destruct d; apply IH. }
    destruct (x =? right_brace)%N.
    { destruct d; [reflexivity | apply IH]. }
    destruct d; [|apply IH].
    rewrite IH. destruct (strip_by_depth 0 o (p + 1) s); reflexivity.
Qed.

(** X6: behind a balanced text the stripper goes on as from a fresh start:
    the result for [a ++ b] is the result for [b] with the kept characters
    of [a] in front, and a fault of [b] is reported with its index moved by
    the length of [a]. *)
Theorem strip_after_balanced (a b : text) :
  balanced a = true ->
  strip_balanced_braces_from_string (a ++ b)
  = match strip_balanced_braces_from_string b with
    | Ok kept => Ok (outside_annotations a ++ kept)
    | Fault f => Fault (shift_fault (len a) f)
    | OutOfFuel => OutOfFuel
    end.
Proof.
  intros Hb. rewrite !strip_refines.
  rewrite (strip_by_depth_balanced a 0 0 (len a + 0) 0 b Hb).
  replace (0 + len a) with (len a + 0) by lia.
  rewrite strip_by_depth_shift.
  destruct (strip_by_depth 0 0 0 b); reflexivity.
Qed.

Lemma strip_after_balanced_witness :
  strip_balanced_braces_from_string (str "e4 {a} e5 " ++ str "Nf3 }")
  = Fault (UnexpectedClosingDelimiter 14).
Proof.
  exact (strip_after_balanced (str "e4 {a} e5 ") (str "Nf3 }") eq_refl).
Defined.

Lemma subseq_length (out s : text) : subseq out s -> len out <= len s.
Proof. induction 1; rewrite ?len_cons; lia. Qed.

Lemma strip_by_depth_subseq (s : text) :
  forall d o p kept, strip_by_depth d o p s = Ok kept -> subseq kept s.
Proof.
  induction s as [|x s IH]; intros d o p kept; simpl.
  - destruct d; [intros [= <-]; constructor | discriminate].
  - destruct (x =? left_brace)%N; [intros H; constructor; apply (IH _ _ _ _ H)|].
    destruct (x =? right_brace)%N.
    { destruct d; [discriminate | intros H; constructor; apply (IH _ _ _ _ H)]. }
    destruct d; [|intros H; constructor; apply (IH _ _ _ _ H)].
    destruct (strip_by_depth 0 o (p + 1) s) as [k| |] eqn:E; simpl;
      try discriminate.
    intros [= <-]. constructor. apply (IH _ _ _ _ E).
Qed.

(** X7: the stripper only leaves characters out: what it returns is the
    input with some characters removed, the others in their order, so it
    is never longer than the input. *)
Theorem strip_output_subseq (s out : text) :
  strip_balanced_braces_from_string s = Ok out ->
  subseq out s /\ len out <= len s.
Proof.
  rewrite strip_refines; intros H.
  pose proof (strip_by_depth_subseq _ _ _ _ _ H) as Hs.
  split; [exact Hs | apply subseq_length, Hs].
Qed.

Lemma strip_output_subseq_witness :
  subseq (str "e4  e5") (str "e4 {a{b}} e5")
  /\ len (str "e4  e5") <= len (str "e4 {a{b}} e5").
Proof.
  exact (strip_output_subseq (str "e4 {a{b}} e5") (str "e4  e5") eq_refl).
Defined.

(** ** skip_over_remainder_of_balanced_expression *)

Lemma after_close_balanced (body rest : text) :
  forall d, balanced_from d body = true ->
  after_close d (body ++ right_brace :: rest) = Some rest.
Proof.
  induction body as [|x body IH]; intros d; simpl.
  - destruct d; [reflexivity | discriminate].
  - destruct (x =? left_brace)%N; [apply IH|].
    destruct (x =? right_brace)%N; [|apply IH].
    destruct d; [discriminate | apply IH].
Qed.

(** X8: called just behind an opening brace whose annotation has a balanced
    body, the function returns the index of the brace that closes it. *)
Theorem skip_over_returns_matching_brace (pre body rest : text) (fuel : nat) :
  let s := pre ++ left_brace :: body ++ right_brace :: rest in
  balanced body = true ->
  (length s < fuel)%nat ->
  skip_over_remainder_of_balanced_expression fuel s (len pre + 1)
  = Ok (len pre + 1 + len body)
  /\ char_at s (len pre + 1 + len body) = Some right_brace.
Proof.
  intros s Hb Hfuel. unfold skip_over_remainder_of_balanced_expression.
  assert (Hs : s = (pre ++ [left_brace]) ++ body ++ right_brace :: rest)
    by (unfold s; rewrite <- app_assoc; reflexivity).
  assert (Hp : len pre + 1 = len (pre ++ [left_brace])) by len_lia.
  split.
  - rewrite Hs, Hp. change 1 with (Z.of_nat 1).
    rewrite skip_loop_after_close.
    + rewrite (after_close_balanced _ _ _ Hb). f_equal. len_lia.
    + rewrite Hs in Hfuel. rewrite length_app in Hfuel. lia.
  - rewrite Hs. rewrite app_assoc. rewrite char_at_behind by len_lia.
    replace (Z.to_nat _) with 0%nat by (unfold len; rewrite !length_app; simpl; lia).
    reflexivity.
Qed.

Lemma skip_over_returns_matching_brace_witness :
  skip_over_remainder_of_balanced_expression 20 (str "e4 {a{b}c} e5") 4 = Ok 9
  /\ char_at (str "e4 {a{b}c} e5") 9 = Some right_brace.
Proof.
  apply (skip_over_returns_matching_brace (str "e4 ") (str "a{b}c") (str " e5") 20).
  - reflexivity.
  - simpl. lia.
Defined.

(** X9: called just behind an opening brace whose annotation is not closed
    by the end of the text, the function stops in the fault that reports
    the index of that opening brace, one before the index it was given. *)
Theorem skip_over_reports_opening_brace (pre body : text) (fuel : nat) :
  never_closed 0 body = true ->
  (length body < fuel)%nat ->
  skip_over_remainder_of_balanced_expression fuel
    (pre ++ left_brace :: body) (len pre + 1)
  = Fault (UnmatchedOpeningDelimiter (len pre)).
Proof.
  intros Hn Hfuel. unfold skip_over_remainder_of_balanced_expression.
  replace (pre ++ left_brace :: body) with ((pre ++ [left_brace]) ++ body)
    by (rewrite <- app_assoc; reflexivity).
  replace (len pre + 1) with (len (pre ++ [left_brace])) by len_lia.
  change 1 with (Z.of_nat 1).
  rewrite skip_loop_after_close by assumption.
  rewrite (never_closed_after_close _ _ Hn). f_equal. f_equal. len_lia.
Qed.

Lemma skip_over_reports_opening_brace_witness :
  skip_over_remainder_of_balanced_expression 20 (str "e4 {a{b}c e5") 4
  = Fault (UnmatchedOpeningDelimiter 3).
Proof.
  apply (skip_over_reports_opening_brace (str "e4 ") (str "a{b}c e5") 20).
  - reflexivity.
  - simpl. lia.
Defined.

(** ** The tokenizer: shape of the tokens, empty results, composition *)

Lemma space_not_letter_or_paren (c : char) :
  is_space c = true -> is_letter_or_paren c = false.
Proof.
  unfold is_space, is_letter_or_paren; intros H.
  apply not_true_is_false; intros L.
  repeat rewrite ?orb_true_iff, ?andb_true_iff, ?N.leb_le, ?N.eqb_eq in H.
  repeat rewrite ?orb_true_iff, ?andb_true_iff, ?N.leb_le, ?N.eqb_eq in L.
  lia.
Qed.

Lemma strip_leading_empty_iff (b : text) :
  strip_leading_movenumber_indication b = [] <-> has_letter_or_paren b = false.
Proof.
  unfold has_letter_or_paren.
  induction b as [|c b IH]; simpl; [tauto|].
  destruct (is_letter_or_paren c); simpl; [split; discriminate | exact IH].
Qed.

Lemma strip_leading_fixed (t : text) :
  match t with [] => True | c :: _ => is_letter_or_paren c = true end ->
  strip_leading_movenumber_indication t = t.
Proof. destruct t as [|c t]; simpl; [reflexivity | intros ->; reflexivity]. Qed.

Lemma bursts_of_members (s : text) (bs : list text) :
  bursts_of s bs ->
  forall b, In b bs ->
  b <> [] /\ no_space b = true /\ exists pre post, s = pre ++ b ++ post.
Proof.
  induction 1 as [ws Hws|ws b0 rest bs Hws Hne Hns Hrest Hbs IH];
    intros b Hin; [destruct Hin|].
  destruct Hin as [<-|Hin].
  - repeat split; try assumption. exists ws, rest; reflexivity.
  - destruct (IH b Hin) as (Hb & Hn & pre & post & ->).
    repeat split; try assumption.
    exists (ws ++ b0 ++ pre), post. rewrite <- !app_assoc; reflexivity.
Qed.

Lemma tokenize_members (s token : text) :
  In token (tokenize_pgnstring s) ->
  well_formed_token token /\ exists pre post, s = pre ++ token ++ post.
Proof.
  unfold tokenize_pgnstring. rewrite filter_In, in_map_iff.
  intros [(b & <- & Hin) Hne].
  destruct (bursts_of_members s _ (split_from_bursts s [] eq_refl) b Hin)
    as (_ & Hns & pre & post & ->).
  destruct (strip_leading_stripped_of b) as (junk & E & _ & Hhead).
  set (t := strip_leading_movenumber_indication b) in *.
  split; [split|].
  - destruct t; [discriminate Hne | exact Hhead].
  - rewrite E in Hns. unfold no_space in *. rewrite forallb_app in Hns.
    apply andb_true_iff in Hns. apply Hns.
  - exists (pre ++ junk), post. rewrite E at 1. rewrite <- !app_assoc; reflexivity.
Qed.

(** X10: every token the tokenizer returns starts with an ASCII letter or
    a parenthesis, holds no white space, and stands in the input as one
    piece. *)
Theorem tokenize_tokens_well_formed (s token : text) :
  In token (tokenize_pgnstring s) ->
  well_formed_token token /\ exists pre post, s = pre ++ token ++ post.
Proof. apply tokenize_members. Qed.

Lemma tokenize_tokens_well_formed_witness :
  well_formed_token (str "Nf3")
  /\ exists pre post, str "1.e4 e5 2.Nf3" = pre ++ str "Nf3" ++ post.
Proof.
  apply (tokenize_tokens_well_formed (str "1.e4 e5 2.Nf3") (str "Nf3")).
  simpl. right; right; left; reflexivity.
Defined.

Lemma has_letter_or_paren_split (s : text) :
  forall cur,
  has_letter_or_paren (concat (split_from cur s)) = has_letter_or_paren (cur ++ s).
Proof.
  unfold has_letter_or_paren.
  induction s as [|c s IH]; intros cur; simpl.
  - destruct cur; simpl; rewrite ?app_nil_r; reflexivity.
  - destruct (is_space c) eqn:Hc.
    + rewrite existsb_app; simpl.
      rewrite (space_not_letter_or_paren c Hc); simpl.
      destruct cur as [|x cur]; [apply (IH [])|].
      cbn [concat]. rewrite existsb_app, (IH []). reflexivity.
    + rewrite IH, <- app_assoc. reflexivity.
Qed.

Lemma tokens_empty_iff (bs : list text) :
  filter truthy (map strip_leading_movenumber_indication bs) = []
  <-> has_letter_or_paren (concat bs) = false.
Proof.
  unfold has_letter_or_paren.
  induction bs as [|b bs IH]; simpl; [tauto|].
  rewrite existsb_app, orb_false_iff, <- IH.
  fold (has_letter_or_paren b). rewrite <- strip_leading_empty_iff.
  destruct (strip_leading_movenumber_indication b); simpl.
  - tauto.
  - split; [discriminate | intros [? _]; discriminate].
Qed.

(** X11: the tokenizer returns no token exactly when the text holds
    neither an ASCII letter nor a parenthesis. *)
Theorem tokenize_empty_iff (s : text) :
  tokenize_pgnstring s = [] <-> has_letter_or_paren s = false.
Proof.
  unfold tokenize_pgnstring, split.
  rewrite tokens_empty_iff, has_letter_or_paren_split. reflexivity.
Qed.

Lemma tokenize_empty_iff_witness : tokenize_pgnstring (str " 1. 2... * 1-0") = [].
Proof.
  apply (proj2 (tokenize_empty_iff (str " 1. 2... * 1-0"))). reflexivity.
Defined.

Lemma split_from_app_space (a b : text) (w : char) :
  is_space w = true ->
  forall cur, split_from cur (a ++ w :: b) = split_from cur a ++ split_from [] b.
Proof.
  intros Hw. induction a as [|c a IH]; intros cur; simpl.
  - rewrite Hw. destruct cur; reflexivity.
  - destruct (is_space c); [|apply IH].
    rewrite IH. destruct cur; reflexivity.
Qed.

(** X12: white space cuts the work in two: the tokens of two texts joined
    by a white-space character are the tokens of the first followed by
    the tokens of the second. *)
Theorem tokenize_app_space (a b : text) (w : char) :
  is_space w = true ->
  tokenize_pgnstring (a ++ w :: b) = tokenize_pgnstring a ++ tokenize_pgnstring b.
Proof.
  intros Hw. unfold tokenize_pgnstring, split.
  rewrite (split_from_app_space a b w Hw), map_app, filter_app. reflexivity.
Qed.

Lemma tokenize_app_space_witness :
  tokenize_pgnstring (str "1.e4 e5" ++ newline :: str "2.Nf3")
  = tokenize_pgnstring (str "1.e4 e5") ++ tokenize_pgnstring (str "2.Nf3").
Proof.
  apply (tokenize_app_space (str "1.e4 e5") (str "2.Nf3") newline). reflexivity.
Defined.

Lemma split_from_no_space (t : text) :
  no_space t = true ->
  forall cur,
  split_from cur t = match cur ++ t with [] => [] | _ => [cur ++ t] end.
Proof.
  unfold no_space. induction t as [|c t IH]; intros Hn cur; simpl.
  - rewrite app_nil_r. destruct cur; reflexivity.
  - simpl in Hn. apply andb_true_iff in Hn. destruct Hn as [Hc Ht].
    apply negb_true_iff in Hc. rewrite Hc, (IH Ht), <- app_assoc. reflexivity.
Qed.

(** X13: the texts the tokenizer returns as one token, themselves, are
    exactly the well-formed tokens; so tokenizing a token it has returned
    gives that token back. *)
Theorem tokenize_fixes_tokens (t : text) :
  tokenize_pgnstring t = [t] <-> well_formed_token t.
Proof.
  split.
  - intros H. apply (tokenize_members t t). rewrite H. left; reflexivity.
  - intros [Hhead Hns]. unfold tokenize_pgnstring, split.
    rewrite (split_from_no_space t Hns []). simpl.
    destruct t as [|c t]; [contradiction|]. simpl. rewrite Hhead. reflexivity.
Qed.

Lemma tokenize_fixes_tokens_witness : tokenize_pgnstring (str "O-O-O") = [str "O-O-O"].
Proof.
  apply (proj2 (tokenize_fixes_tokens (str "O-O-O"))). split; reflexivity.
Defined.

(** X14: stripping the move-number indication twice is stripping it once,
    and nothing is left exactly when the text holds neither an ASCII
    letter nor a parenthesis. *)
Theorem strip_leading_movenumber_indication_idempotent (b : text) :
  strip_leading_movenumber_indication (strip_leading_movenumber_indication b)
  = strip_leading_movenumber_indication b
  /\ (strip_leading_movenumber_indication b = []
      <-> has_letter_or_paren b = false).
Proof.
  split; [|apply strip_leading_empty_iff].
  apply strip_leading_fixed.
  destruct (strip_leading_stripped_of b) as (_ & _ & _ & H). exact H.
Qed.

(** ** The extractor and the pipeline *)

Lemma extract_fault_iff_no_boundary_helper
    (locate : text -> option Z * option Z) (source : text) (f : fault) :
  extract_game_1_movetext locate source = Fault f -> f = MissingHeaderSeparator.
Proof.
  unfold extract_game_1_movetext.
  destruct (locate source) as [[a|] e]; [discriminate|].
  intros [= <-]; reflexivity.
Qed.



Lemma slice_piece (s : text) (a b : Z) :
  exists pre post, s = pre ++ slice s a b ++ post.
Proof.
  unfold slice.
  set (n := Z.to_nat (clip (len s) b - clip (len s) a)).
  set (k := Z.to_nat (clip (len s) a)).
  exists (firstn k s), (skipn n (skipn k s)).
  rewrite (firstn_skipn n (skipn k s)), firstn_skipn. reflexivity.
Qed.

Lemma lstrip_suffix (s : text) : exists ws, s = ws ++ lstrip s.
Proof. destruct (lstrip_left_trimmed s) as (ws & E & _); exists ws; exact E. Qed.

Lemma lstrip_head (s : text) :
  match lstrip s with [] => True | c :: _ => is_space c = false end.
Proof. destruct (lstrip_left_trimmed s) as (ws & _ & _ & H); exact H. Qed.

(** X16: whatever two boundaries the locator gives, negative ones and ones
    behind the end included, the movetext the extractor returns stands in
    the source as one piece and does not start with white space. *)
Theorem extract_output_is_piece
    (locate : text -> option Z * option Z) (source m : text) :
  extract_game_1_movetext locate source = Ok m ->
  (exists pre post, source = pre ++ m ++ post)
  /\ match m with [] => True | c :: _ => is_space c = false end.
Proof.
  unfold extract_game_1_movetext.
  destruct (locate source) as [[a|] e]; [|discriminate].
  intros [= <-]. split; [|apply lstrip_head].
  destruct e as [b|].
  - destruct (slice_piece source a b) as (pre & post & E).
    destruct (lstrip_suffix (slice source a b)) as (ws & Ews).
    exists (pre ++ ws), post. rewrite E at 1. rewrite Ews at 1.
    rewrite <- !app_assoc. reflexivity.
  - unfold slice_from.
    destruct (lstrip_suffix (skipn (Z.to_nat (clip (len source) a)) source))
      as (ws & Ews).
    exists (firstn (Z.to_nat (clip (len source) a)) source ++ ws), [].
    rewrite app_nil_r, <- app_assoc, <- Ews, firstn_skipn. reflexivity.
Qed.

Lemma extract_output_is_piece_witness :
  (exists pre post, str "[Event x]  e4 e5" = pre ++ str "e4 e" ++ post)
  /\ match str "e4 e" with [] => True | c :: _ => is_space c = false end.
Proof.
  exact (extract_output_is_piece (fun _ => (Some (-7), Some (-1)))
           (str "[Event x]  e4 e5") (str "e4 e") eq_refl).
Defined.

Lemma brace_free_piece (pre t post : text) :
  brace_free (pre ++ t ++ post) = true -> brace_free t = true.
Proof.
  unfold brace_free. rewrite !forallb_app, !andb_true_iff. tauto.
Qed.

(** X17: every token the pipeline returns is well formed (it starts with
    an ASCII letter or a parenthesis and holds no white space) and holds
    no brace. *)
Theorem pipeline_tokens_clean
    (locate : text -> option Z * option Z) (source : text)
    (tokens : list text) (token : text) :
  clean_and_parse_string_read_from_file locate source = Ok tokens ->
  In token tokens ->
  well_formed_token token /\ brace_free token = true.
Proof.
  unfold clean_and_parse_string_read_from_file.
  destruct (extract_game_1_movetext locate source) as [m| |]; simpl;
    try discriminate.
  destruct (strip_balanced_braces_from_string m) as [out| |] eqn:Es; simpl;
    try discriminate.
  destruct (truthy out); simpl; [|discriminate].
  intros [= <-] Hin.
  destruct (tokenize_members out token Hin) as (Hwf & pre & post & E).
  split; [exact Hwf|].
  rewrite strip_refines in Es.
  pose proof (strip_by_depth_brace_free _ _ _ _ _ Es) as Hf.
  rewrite E in Hf. exact (brace_free_piece _ _ _ Hf).
Qed.

Lemma pipeline_tokens_clean_witness :
  well_formed_token (str "e5") /\ brace_free (str "e5") = true.
Proof.
  apply (pipeline_tokens_clean (fun _ => (Some 10, None))
           (str "[Event x]  1.e4 {best} 1...e5 *") [str "e4"; str "e5"] (str "e5")).
  - reflexivity.
  - right; left; reflexivity.
Defined.

Lemma char_at_middle (pre rest : text) (c : char) :
  char_at (pre ++ c :: rest) (len pre) = Some c.
Proof.
  rewrite char_at_behind by lia. rewrite Z.sub_diag. reflexivity.
Qed.

(** X18: a brace fault of the pipeline carries an index into the extracted
    movetext, not into the text read from the file: at that index the
    movetext holds the brace the fault names. *)
Theorem pipeline_fault_index_in_movetext
    (locate : text -> option Z * option Z) (source : text) (k : Z) :
  (clean_and_parse_string_read_from_file locate source
   = Fault (UnexpectedClosingDelimiter k) ->
   exists m, extract_game_1_movetext locate source = Ok m
             /\ char_at m k = Some right_brace)
  /\ (clean_and_parse_string_read_from_file locate source
      = Fault (UnmatchedOpeningDelimiter k) ->
      exists m, extract_game_1_movetext locate source = Ok m
                /\ char_at m k = Some left_brace).
Proof.
  unfold clean_and_parse_string_read_from_file.
  destruct (extract_game_1_movetext locate source) as [m|f|] eqn:Em; simpl.
  - destruct (strip_balanced_braces_from_string m) as [out|f|] eqn:Es; simpl.
    + destruct (truthy out); simpl; split; discriminate.
    + rewrite strip_refines in Es. split; intros [= ->]; exists m;
        (split; [reflexivity|]).
      * destruct (strip_by_depth_unexpected _ _ _ _ _ Es)
          as (pre & rest & -> & _ & ->). apply char_at_middle.
      * destruct (strip_by_depth_unmatched _ _ _ _ _ Es)
          as [(d' & [=] & _)|(pre & body & -> & _ & _ & ->)].
        apply char_at_middle.
    + split; discriminate.
  - apply extract_fault_iff_no_boundary_helper in Em.
    split; intros [= ->]; discriminate Em.
  - split; discriminate.
Qed.

Lemma pipeline_fault_index_in_movetext_witness :
  exists m,
    extract_game_1_movetext (fun _ => (Some 10, None)) (str "[Event x]  e4 } e5")
    = Ok m
    /\ char_at m 3 = Some right_brace.
Proof.
  apply (proj1 (pipeline_fault_index_in_movetext (fun _ => (Some 10, None))
                  (str "[Event x]  e4 } e5") 3)).
  reflexivity.
Defined.

(** The same brace stands at index 14 of the text read from the file. *)
Example pipeline_fault_index_is_not_file_index :
  clean_and_parse_string_read_from_file (fun _ => (Some 10, None))
    (str "[Event x]  e4 } e5")
  = Fault (UnexpectedClosingDelimiter 3)
  /\ char_at (str "[Event x]  e4 } e5") 14 = Some right_brace
  /\ char_at (str "[Event x]  e4 } e5") 3 <> Some right_brace.
Proof. repeat split; discriminate. Qed.

(** ** dump_pgn *)

Lemma dump_pgn_cons (c : char) (s : text) :
  dump_pgn (c :: s)
  = if (c =? newline)%N then str "<br>" ++ dump_pgn s else c :: dump_pgn s.
Proof. reflexivity. Qed.

Lemma dump_pgn_keeps_no_newline (s : text) : ~ In newline (dump_pgn s).
Proof.
  induction s as [|c s IH]; [intros []|].
  rewrite dump_pgn_cons. destruct (N.eqb_spec c newline) as [->|Hc].
  - intros H. apply in_app_or in H. destruct H as [H|H]; [|exact (IH H)].
    simpl in H. repeat (destruct H as [H|H]; [discriminate H|]). exact H.
  - intros [H|H]; [exact (Hc H) | exact (IH H)].
Qed.

(** X19: the page text that [dump_pgn] builds holds no newline character,
    and it is longer than the text read by three characters for every
    newline of that text. *)
Theorem dump_pgn_replaces_every_newline (s : text) :
  ~ In newline (dump_pgn s)
  /\ len (dump_pgn s) = len s + 3 * count_char newline s.
Proof.
  split; [apply dump_pgn_keeps_no_newline|].
  unfold count_char.
  induction s as [|c s IH]; [reflexivity|].
  rewrite dump_pgn_cons. cbn [filter].
  destruct (c =? newline)%N.
  - rewrite len_app, !len_cons, IH. change (len (str "<br>")) with 4. lia.
  - rewrite !len_cons, IH. lia.
Qed.

(** X20: [dump_pgn] leaves the text as it is exactly when the text holds
    no newline character. *)
Theorem dump_pgn_unchanged_iff_no_newline (s : text) :
  dump_pgn s = s <-> ~ In newline s.
Proof.
  split.
  - intros E. rewrite <- E. apply dump_pgn_keeps_no_newline.
  - induction s as [|c s IH]; [reflexivity|].
    intros Hn. rewrite dump_pgn_cons.
    destruct (N.eqb_spec c newline) as [->|Hc];
      [exfalso; apply Hn; left; reflexivity|].
    rewrite IH; [reflexivity | intros H; apply Hn; right; exact H].
Qed.

Lemma dump_pgn_unchanged_iff_no_newline_witness :
  dump_pgn (str "1.e4 e5 *") = str "1.e4 e5 *".
Proof.
  apply (proj2 (dump_pgn_unchanged_iff_no_newline (str "1.e4 e5 *"))).
  simpl. intros H. repeat (destruct H as [H|H]; [discriminate H|]). exact H.
Defined.

Example dump_pgn_two_lines :
  dump_pgn (str "[Event x]" ++ [newline; newline] ++ str "1.e4")
  = str "[Event x]<br><br>1.e4".
Proof. reflexivity. Qed.

(** ** The pipeline from end to end *)

(** X21: the pipeline returns a token list exactly when a movetext is
    extracted, its braces are balanced and something is left outside its
    annotations; the tokens are then those of what is left. *)
Theorem pipeline_succeeds_iff
    (locate : text -> option Z * option Z) (source : text) (tokens : list text) :
  clean_and_parse_string_read_from_file locate source = Ok tokens
  <-> exists m,
        extract_game_1_movetext locate source = Ok m
        /\ balanced m = true
        /\ outside_annotations m <> []
        /\ tokens = tokenize_pgnstring (outside_annotations m).
Proof.
  unfold clean_and_parse_string_read_from_file. split.
  - destruct (extract_game_1_movetext locate source) as [m| |]; simpl;
      try discriminate.
    destruct (strip_balanced_braces_from_string m) as [out| |] eqn:Es; simpl;
      try discriminate.
    rewrite strip_refines in Es.
    destruct (strip_by_depth_ok _ _ _ _ _ Es) as [Hb ->].
    fold (outside_annotations m).
    destruct (outside_annotations m) eqn:Eo; simpl; [discriminate|].
    intros [= <-]. exists m. repeat split; [exact Hb | rewrite Eo; discriminate |].
    rewrite Eo; reflexivity.
  - intros (m & -> & Hb & Hne & ->); simpl.
    rewrite strip_refines, (strip_by_depth_of_balanced m 0 0 0 Hb); simpl.
    fold (outside_annotations m).
    destruct (outside_annotations m); [contradiction | reflexivity].
Qed.

Lemma pipeline_succeeds_iff_witness :
  clean_and_parse_string_read_from_file (fun _ => (Some 10, None))
    (str "[Event x]  1.e4 {best {by far}} e5 (1...c5) *")
  = Ok [str "e4"; str "e5"; str "(1...c5)"].
Proof.
  apply (proj2 (pipeline_succeeds_iff (fun _ => (Some 10, None))
                  (str "[Event x]  1.e4 {best {by far}} e5 (1...c5) *")
                  [str "e4"; str "e5"; str "(1...c5)"])).
  exists (str "1.e4 {best {by far}} e5 (1...c5) *").
  repeat split. discriminate.
Defined.

(** ** scan_for_next_brace: what stands before the start *)

Lemma find_at_from (c : char) (l : text) (p : Z) :
  0 <= p ->
  find_at c l p = (if find_at c l 0 =? -1 then -1 else p + find_at c l 0)
  /\ (find_at c l 0 = -1 \/ 0 <= find_at c l 0).
Proof.
  intros Hp.
  destruct (find_at_spec c l 0) as [[E0 Hn]|(t & rest & El & Hn & E0)].
  - rewrite E0, (find_at_absent c l p Hn). split; [reflexivity | left; reflexivity].
  - pose proof (len_nonneg t). rewrite E0. subst l.
    rewrite (find_at_skip c t _ p Hn), find_at_here.
    destruct (Z.eqb_spec (0 + len t) (-1)); [lia|]. split; lia.
Qed.

(** X22: a scan does not look at what stands before its start: the scan of
    [pre ++ l] from the end of [pre] is the scan of [l] from its start,
    with the index moved by the length of [pre]. *)
Theorem scan_for_next_brace_ignores_prefix (pre l : text) (lb rb : char) :
  scan_for_next_brace (pre ++ l) (len pre) lb rb
  = let '(index_found, is_right_brace, is_left_brace) :=
      scan_for_next_brace l 0 lb rb in
    ((if index_found =? -1 then -1 else len pre + index_found),
     is_right_brace, is_left_brace).
Proof.
  pose proof (len_nonneg pre) as Hp.
  unfold scan_for_next_brace, value_if_no_brace_found.
  rewrite !find_suffix.
  change (find l lb 0) with (find ([] ++ l) lb (len [])).
  change (find l rb 0) with (find ([] ++ l) rb (len [])).
  rewrite !find_suffix. change (len []) with 0.
  destruct (find_at_from lb l (len pre) Hp) as [-> Hl].
  destruct (find_at_from rb l (len pre) Hp) as [-> Hr].
  destruct (Z.eqb_spec (find_at rb l 0) (-1)) as [Er|Er];
    destruct (Z.eqb_spec (find_at lb l 0) (-1)) as [El|El]; simpl.
  - reflexivity.
  - destruct (Z.eqb_spec (len pre + find_at lb l 0) (-1)); [lia|].
    destruct (Z.eqb_spec (find_at lb l 0) (-1)); [lia | reflexivity].
  - destruct (Z.eqb_spec (len pre + find_at rb l 0) (-1)); [lia|].
    destruct (Z.eqb_spec (find_at rb l 0) (-1)); [lia | reflexivity].
  - destruct (Z.eqb_spec (len pre + find_at rb l 0) (-1)); [lia|].
    destruct (Z.eqb_spec (len pre + find_at lb l 0) (-1)); [lia|].
    destruct (Z.ltb_spec (find_at rb l 0) (find_at lb l 0));
      destruct (Z.ltb_spec (len pre + find_at rb l 0) (len pre + find_at lb l 0));
      try lia.
    + destruct (Z.eqb_spec (find_at rb l 0) (-1)); [lia | reflexivity].
    + destruct (Z.eqb_spec (find_at lb l 0) (-1)); [lia | reflexivity].
Qed.
